(** * The LCOV report action ([src/main.js]): a shallow embedding

    The action merges coverage trace files, compares the aggregate
    coverage with the one recorded on the target branch, publishes a
    pull-request comment and gates the build on a minimum coverage.

    The program is sequential [async]/[await] code that talks to the
    Actions toolkit, the artifact service, the REST API of the host and
    two external tools.  It is embedded as a state-and-exception monad
    over a [World] (the comment thread of the pull request and the log of
    everything the run did), reading an [Env] that fixes what the outside
    world answers.  JavaScript numbers are IEEE-754 binary64 values
    ([PrimFloat.float]). *)

From Stdlib Require Import ZArith List Bool Ascii String Lia.
From Stdlib Require Import Uint63 PrimFloat FloatOps SpecFloat.
From Stdlib Require DecimalString.
Import ListNotations.

Local Open Scope list_scope.
Local Open Scope string_scope.

(** ** Strings as JavaScript uses them *)

Definition LF : string := String (ascii_of_nat 10) EmptyString.
Definition CR_char : ascii := ascii_of_nat 13.
Definition LF_char : ascii := ascii_of_nat 10.

(** [line.startsWith(p)] *)
Definition startsWith (line p : string) : bool := String.prefix p line.

(** [s.includes(needle)] *)
Fixpoint includes (s needle : string) : bool :=
  String.prefix needle s
  || match s with
     | EmptyString => false
     | String _ rest => includes rest needle
     end.

(** [lines.join(sep)] *)
Definition join (sep : string) (lines : list string) : string :=
  String.concat sep lines.

(** A string is truthy when it is not empty. *)
Definition truthy (s : string) : bool := negb (s =? "").

(** [s.substr(0, n)] *)
Definition substr0 (n : nat) (s : string) : string := String.substring 0 n s.

(** The decimal numeral of a non-negative integer (template literals over
    ids, counters and lengths). *)
Definition decimal (n : Z) : string :=
  DecimalString.NilZero.string_of_int (Z.to_int n).

(** [s.split("\n")] *)
Fixpoint split_lf (s : string) : list string :=
  match s with
  | EmptyString => [EmptyString]
  | String c rest =>
      if Ascii.eqb c LF_char then EmptyString :: split_lf rest
      else match split_lf rest with
           | h :: t => String c h :: t
           | [] => [String c EmptyString]
           end
  end.

Fixpoint drop_final_cr (s : string) : string :=
  match s with
  | EmptyString => EmptyString
  | String c EmptyString => if Ascii.eqb c CR_char then EmptyString else s
  | String c rest => String c (drop_final_cr rest)
  end.

(** [s.split(/\r?\n/)]: a carriage return right before a line feed belongs
    to the separator; the last piece is followed by no separator. *)
Definition split_lines (s : string) : list string :=
  let pieces := split_lf s in
  (map drop_final_cr (removelast pieces) ++ [last pieces EmptyString])%list.

(** ** Numbers as JavaScript uses them *)

(** [Number::lessThan]: [None] is the specification's [undefined], the
    answer when an operand is NaN. *)
Definition Number_lessThan (x y : float) : option bool :=
  if PrimFloat.is_nan x || PrimFloat.is_nan y then None
  else Some (PrimFloat.ltb x y).

(** [x >= y] on numbers: false when [x < y] is true or undefined. *)
Definition js_ge (x y : float) : bool :=
  match Number_lessThan x y with
  | Some false => true
  | _ => false
  end.

(** [x > y] on numbers: [y < x], with undefined read as false. *)
Definition js_gt (x y : float) : bool :=
  match Number_lessThan y x with
  | Some b => b
  | None => false
  end.

(** The integer nearest to [m * 2^e * 100], the larger one on a tie
    (step "let n be an integer for which n / 10^f - x is as close to zero
    as possible; if there are two such n, pick the larger n" of
    [Number.prototype.toFixed], at f = 2). *)
Definition nearest_hundredths (m : positive) (e : Z) : Z :=
  if (0 <=? e)%Z then (Z.pos m * 2 ^ e * 100)%Z
  else ((200 * Z.pos m + 2 ^ (- e)) / 2 ^ (- e + 1))%Z.

Fixpoint zeros (k : nat) : string :=
  match k with
  | O => EmptyString
  | S k' => String "0" (zeros k')
  end.

(** The digits of [n] with a point before the last two, padded with
    zeros to at least three digits. *)
Definition fixed2_digits (n : Z) : string :=
  let m := decimal n in
  let m := if (String.length m <=? 2)%nat then zeros (3 - String.length m) ++ m else m in
  let k := String.length m in
  String.substring 0 (k - 2) m ++ "." ++ String.substring (k - 2) 2 m.

(** ** The JavaScript and Node runtime

    What the language and the Node library provide and the program only
    calls: number/string conversions, [String.prototype.trim] and the
    [path] module. *)
Class Runtime : Type := {
  NumberToString : float -> string;      (* template literal over a number *)
  StringToNumber : string -> float;      (* coercion of a string operand of >= *)
  trim : string -> string;               (* String.prototype.trim *)
  path_resolve : string -> string -> string;
  path_dirname : string -> string;
  path_join : string -> string -> string;
}.

(** ** The data of a run *)

Record PullRequest : Type := {
  pr_number : Z;
  pr_head_sha : string;
  pr_base_ref : string;
}.

(** One entry of the host's workflow-run listing. *)
Record WorkflowRun : Type := {
  run_id : Z;
  run_head_branch : string;
  run_head_sha : string;
  run_conclusion : string;
}.

(** The "find by" descriptor that scopes an artifact lookup to a run. *)
Record FindBy : Type := {
  fb_token : string;
  fb_workflowRunId : Z;
  fb_repositoryOwner : string;
  fb_repositoryName : string;
}.

Record Comment : Type := {
  comment_id : Z;
  comment_body : string;
}.

(** What [downloadTargetBranchCoverage] returns when it finds a baseline;
    [bl_path] is optional because [downloadSingleFileArtifact] can return
    [undefined]. *)
Record BaselineFile : Type := {
  bl_path : option string;
  bl_runId : Z;
  bl_targetBranchSha : string;
}.

(** What [calculatePreviousCoverage] returns when it is not [null]. *)
Record PreviousCoverage : Type := {
  coverage : float;
  prev_path : option string;
  runId : Z;
  targetBranchSha : string;
}.

(** Every call that leaves the program. *)
Inductive Call : Type :=
| Glob (pattern : string)
| Exec (cmd : string) (args : list string) (cwd : option string)
| LcovTotal (path : option string)
| GetOctokit (token : string)
| ListFiles (pull_number : Z)
| ListComments (issue_number : Z)
| CreateComment (issue_number : Z) (body : string)
| UpdateComment (id : Z) (body : string)
| ListWorkflowRuns (branch : string) (per_page : nat)
| GetArtifact (name : string) (findBy : FindBy)
| DownloadArtifact (id : Z) (findBy : FindBy) (path : string)
| UploadArtifact (name : string) (files : list string) (rootDirectory : string)
| Readdir (dir : string).

Inductive Level : Type := LInfo | LWarning | LDebug | LConsole.

(** What a run leaves behind, in the order it happened. *)
Inductive Event : Type :=
| Called (c : Call)
| Logged (level : Level) (message : string)
| OutputSet (name : string) (value : float)
| FailedSet (message : string).

(** What the outside world answers during one run. [fault c] is the
    message of the error that call [c] raises, if it raises one; an
    answer is read only when the call does not raise.  [artifact_id] is
    what [getArtifact] answers: the program tests it for "no artifact",
    an answer the artifact client of the toolkit replaces by an error. *)
Record Env : Type := {
  getInput : string -> string;
  eventName : string;
  pull_request : option PullRequest;
  owner : string;
  repo : string;
  action : string;
  workflow : string;
  runNumber : Z;
  context_runId : Z;
  tmpdir : string;
  glob_result : string -> list string;
  exec_output : string -> list string -> string;
  lcov_total : option string -> float;
  changed_files : list string;
  workflow_runs : list WorkflowRun;
  artifact_id : string -> FindBy -> option Z;
  readdir : string -> list string;
  fault : Call -> option string;
}.

(** The state a run changes: the comment thread of the pull request (in
    the order the host lists it), the id the host gives the next comment,
    and the log. *)
Record World : Type := {
  comments : list Comment;
  next_comment_id : Z;
  log : list Event;
}.

(** ** The monad of the program: state and exceptions *)

Inductive outcome (A : Type) : Type :=
| Returned (a : A)
| Thrown (message : string).
Arguments Returned {A} a.
Arguments Thrown {A} message.

Definition Action (A : Type) : Type := World -> outcome A * World.

Definition ret {A : Type} (a : A) : Action A := fun w => (Returned a, w).

Definition bind {A B : Type} (m : Action A) (k : A -> Action B) : Action B :=
  fun w =>
    match m w with
    | (Returned a, w') => k a w'
    | (Thrown e, w') => (Thrown e, w')
    end.

(** [throw Error(message)] *)
Definition throw {A : Type} (message : string) : Action A :=
  fun w => (Thrown message, w).

(** [try { m } catch (error) { handler(error.message) }] *)
Definition try_catch {A : Type} (m : Action A) (handler : string -> Action A) : Action A :=
  fun w =>
    match m w with
    | (Returned a, w') => (Returned a, w')
    | (Thrown e, w') => handler e w'
    end.

Declare Scope action_scope.
Delimit Scope action_scope with action.
Notation "x <- m ;; k" := (bind m (fun x => k))
  (at level 61, m at next level, right associativity) : action_scope.
Notation "m ;; k" := (bind m (fun _ => k))
  (at level 61, right associativity) : action_scope.
Local Open Scope action_scope.

Definition emit (e : Event) : Action unit :=
  fun w => (Returned tt,
            {| comments := comments w; next_comment_id := next_comment_id w;
               log := (log w ++ [e])%list |}).

Definition core_info (m : string) : Action unit := emit (Logged LInfo m).
Definition core_warning (m : string) : Action unit := emit (Logged LWarning m).
Definition core_debug (m : string) : Action unit := emit (Logged LDebug m).
Definition console_log (m : string) : Action unit := emit (Logged LConsole m).
Definition core_setOutput (name : string) (v : float) : Action unit := emit (OutputSet name v).
Definition core_setFailed (m : string) : Action unit := emit (FailedSet m).

(** The double-quote character, for messages that quote a name. *)
Definition DQ : string := String (ascii_of_nat 34) EmptyString.

(** [x.toFixed(2)] ([Number.prototype.toFixed] at two fraction digits):
    a number that is not finite prints as [Number::toString] prints it;
    otherwise the sign ("-" only when [x < 0], so not for a zero)
    followed by [Number::toString] of the magnitude when that is at
    least 10^21, and by its nearest hundredths below that. *)
Definition toFixed2 {rt : Runtime} (x : float) : string :=
  match Prim2SF x with
  | S754_zero _ => fixed2_digits 0
  | S754_finite s m e =>
      (if s then "-" else "")
      ++ (if (10 ^ 21 <=? Z.pos m * 2 ^ e)%Z then NumberToString (PrimFloat.abs x)
          else fixed2_digits (nearest_hundredths m e))
  | _ => NumberToString x
  end.

(** ** The host services, as far as the program observes them *)

(** Page size of a REST listing that names none. *)
Definition default_per_page : nat := 30.

(** Modelled from the REST interface of the host: the workflow-run
    listing, newest first, narrowed to a branch and, when the request
    names one, to a status or conclusion; one page of it. *)
Definition listWorkflowRunsForRepo (runs : list WorkflowRun)
    (branch : string) (status : option string) (per_page : nat) : list WorkflowRun :=
  firstn per_page
    (filter (fun r =>
               (run_head_branch r =? branch)
               && match status with
                  | Some s => run_conclusion r =? s
                  | None => true
                  end) runs).

(** Modelled from the REST interface of the host: a listing of the
    comments of an issue answers with its first page. *)
Definition host_listComments : Action (list Comment) :=
  fun w => (Returned (firstn default_per_page (comments w)), w).

(** Modelled from the REST interface of the host: a new comment goes to
    the end of the thread under a fresh id. *)
Definition host_createComment (body : string) : Action unit :=
  fun w => (Returned tt,
            {| comments := (comments w
                            ++ [{| comment_id := next_comment_id w; comment_body := body |}])%list;
               next_comment_id := next_comment_id w + 1;
               log := log w |}).

(** Modelled from the REST interface of the host: an update replaces the
    body of the comment with that id and keeps its place. *)
Definition host_updateComment (id : Z) (body : string) : Action unit :=
  fun w => (Returned tt,
            {| comments := map (fun c => if (comment_id c =? id)%Z
                                         then {| comment_id := id; comment_body := body |}
                                         else c) (comments w);
               next_comment_id := next_comment_id w;
               log := log w |}).

(** ** The program *)

Section Program.
Context {rt : Runtime} (env : Env).

(** A call that leaves the program: it is logged, then it raises or
    answers. *)
Definition call {A : Type} (c : Call) (answer : A) : Action A :=
  emit (Called c) ;;
  match fault env c with
  | Some message => throw message
  | None => ret answer
  end.

(** [const events = ['pull_request', 'pull_request_target']] *)
Definition events : list string := ["pull_request"; "pull_request_target"].

(** [github.context.payload.pull_request.<field>]: a [TypeError] when the
    payload has no pull request. *)
Definition payload_pull_request (field : string) : Action PullRequest :=
  match pull_request env with
  | Some pr => ret pr
  | None => throw ("Cannot read properties of undefined (reading '" ++ field ++ "')")
  end.

Definition createComment (body : string) : Action unit :=
  core_debug "Creating a comment in the PR." ;;
  pr <- payload_pull_request "number" ;;
  call (CreateComment (pr_number pr) body) tt ;;
  host_createComment body.

Definition upsertComment (body commentHeaderPrefix : string) : Action unit :=
  pr <- payload_pull_request "number" ;;
  call (ListComments (pr_number pr)) tt ;;
  issueComments <- host_listComments ;;
  match find (fun comment => includes (comment_body comment) commentHeaderPrefix) issueComments with
  | Some existingComment =>
      core_debug ("Updating comment, id: " ++ decimal (comment_id existingComment) ++ ".") ;;
      call (UpdateComment (comment_id existingComment) body) tt ;;
      host_updateComment (comment_id existingComment) body
  | None =>
      core_debug "Comment does not exist, a new comment will be created." ;;
      createComment body
  end.

Definition downloadSingleFileArtifact (artifactName : string) (findBy : FindBy)
    (downloadDir : string) : Action (option string) :=
  artifactInfo <- call (GetArtifact artifactName findBy) (artifact_id env artifactName findBy) ;;
  match artifactInfo with
  | None =>
      core_warning ("No artifact found for " ++ DQ ++ artifactName ++ DQ ++ ".") ;;
      ret None
  | Some id =>
      call (DownloadArtifact id findBy downloadDir) tt ;;
      core_info ("Artifact " ++ DQ ++ artifactName ++ DQ ++ " downloaded to " ++ downloadDir ++ ".") ;;
      files <- call (Readdir downloadDir) (readdir env downloadDir) ;;
      if negb (List.length files =? 1)%nat then
        throw ("Expected a single file, but found " ++ decimal (Z.of_nat (List.length files))
               ++ " files in " ++ downloadDir ++ ".")
      else
        ret (Some (path_join downloadDir (nth 0 files "")))
  end.

Definition downloadTargetBranchCoverage (artifactName gitHubToken tmpPath : string)
    : Action (option BaselineFile) :=
  match pull_request env with
  | None =>
      core_warning "Not a pull request event. Skipping target branch coverage download." ;;
      ret None
  | Some pr =>
      let targetBranch := pr_base_ref pr in
      core_info ("Searching for a successful workflow run on target branch: " ++ targetBranch) ;;
      workflow_runs <-
        call (ListWorkflowRuns targetBranch 1)
             (listWorkflowRunsForRepo (workflow_runs env) targetBranch None 1) ;;
      match workflow_runs with
      | [] =>
          core_warning ("No successful workflow runs found on branch "
                        ++ DQ ++ targetBranch ++ DQ ++ ".") ;;
          ret None
      | run0 :: _ =>
          let workflowRunId := run_id run0 in
          core_info ("Found run id " ++ decimal workflowRunId ++ " on branch " ++ targetBranch ++ ".") ;;
          let findBy := {| fb_token := gitHubToken;
                           fb_workflowRunId := workflowRunId;
                           fb_repositoryOwner := owner env;
                           fb_repositoryName := repo env |} in
          artifactInfo <- call (GetArtifact artifactName findBy) (artifact_id env artifactName findBy) ;;
          match artifactInfo with
          | None =>
              core_warning ("No artifact found for " ++ DQ ++ artifactName ++ DQ ++ ".") ;;
              ret None
          | Some _ =>
              path <- downloadSingleFileArtifact artifactName findBy
                        (tmpPath ++ "/" ++ decimal workflowRunId ++ "-" ++ artifactName ++ "-lcov.info") ;;
              core_info ("Artifact " ++ DQ ++ artifactName ++ DQ ++ " downloaded to "
                         ++ match path with Some p => p | None => "undefined" end ++ ".") ;;
              ret (Some {| bl_path := path;
                           bl_runId := workflowRunId;
                           bl_targetBranchSha := run_head_sha run0 |})
          end
      end
  end.

(** The [if (!path) return null] inside the [try] tests the [path]
    module, which is an object and so truthy: that return is never
    taken. *)
Definition calculatePreviousCoverage (artifactName gitHubToken tmpPath : string)
    : Action (option PreviousCoverage) :=
  looked_up <-
    try_catch
      (coverage <- downloadTargetBranchCoverage artifactName gitHubToken tmpPath ;;
       ret (Some coverage))
      (fun message =>
         core_warning ("Error loading previous coverage: " ++ message) ;;
         ret None) ;;
  match looked_up with
  | None => ret None
  | Some None => ret None
  | Some (Some baseline) =>
      total <- call (LcovTotal (bl_path baseline)) (lcov_total env (bl_path baseline)) ;;
      ret (Some {| coverage := total;
                   prev_path := bl_path baseline;
                   runId := bl_runId baseline;
                   targetBranchSha := bl_targetBranchSha baseline |})
  end.

Definition genhtml (coverageFiles : list string) (tmpPath : string) : Action unit :=
  let workingDirectory :=
    let d := trim (getInput env "working-directory") in if truthy d then d else "./" in
  let artifactName := trim (getInput env "artifact-name") in
  let artifactPath := trim (path_resolve tmpPath "html") in
  let args := (coverageFiles ++ ["--rc"; "lcov_branch_coverage=1"]
               ++ ["--output-directory"; artifactPath])%list in
  call (Exec "genhtml" args (Some workingDirectory)) tt ;;
  if negb (artifactName =? "") then
    htmlFiles <- call (Glob (artifactPath ++ "/**/**.*"))
                      (glob_result env (artifactPath ++ "/**/**.*")) ;;
    core_info "Uploading artifacts." ;;
    call (UploadArtifact artifactName htmlFiles artifactPath) tt
  else
    core_info "Skip uploading artifacts".

Definition mergeCoverages (coverageFiles : list string) (tmpPath : string) : Action string :=
  let mergedCoverageFile := tmpPath ++ "/lcov.info" in
  let args := (flat_map (fun coverageFile => ["--add-tracefile"; coverageFile]) coverageFiles
               ++ ["--output-file"; mergedCoverageFile])%list in
  call (Exec "lcov" (args ++ ["--rc"; "lcov_branch_coverage=1"])%list None) tt ;;
  ret mergedCoverageFile.

Definition summarize (coverageFile : string) : Action string :=
  let args := ["--summary"; coverageFile; "--rc"; "lcov_branch_coverage=1"] in
  output <- call (Exec "lcov" args None) (exec_output env "lcov" args) ;;
  let lines := split_lines (trim output) in
  let lines := tl lines in
  ret (join LF lines).

(** The loop of the filter callback over [changedFiles]: it logs each
    comparison and stops at the first changed file the line starts
    with. *)
Fixpoint matchesChangedFile (line : string) (changedFiles : list string) : Action bool :=
  match changedFiles with
  | [] => ret false
  | changedFile :: rest =>
      console_log (line ++ " === " ++ changedFile) ;;
      if startsWith line changedFile then ret true
      else matchesChangedFile line rest
  end.

(** [lines.filter((line, index) => ...)] over the lines from position
    [index] on. *)
Fixpoint filterLines (lines : list string) (index : nat) (changedFiles : list string)
    : Action (list string) :=
  match lines with
  | [] => ret []
  | line :: rest =>
      keep <- (if (index <=? 2)%nat then ret true
               else matchesChangedFile line changedFiles) ;;
      kept <- filterLines rest (S index) changedFiles ;;
      ret (if keep then line :: kept else kept)
  end.

(** The changed-file filter: the last part of [detail], from the
    [filter] call to the two [return]s. *)
Definition changedFilesFilter (lines changedFiles : list string) : Action string :=
  lines <- filterLines lines 0 changedFiles ;;
  if (List.length lines =? 3)%nat then ret " n/a"
  else ret (LF ++ "  " ++ join (LF ++ "  ") lines).

Definition detail (coverageFile : string) : Action string :=
  let args := ["--list"; coverageFile; "--list-full-path"; "--rc"; "lcov_branch_coverage=1"] in
  output <- call (Exec "lcov" args None) (exec_output env "lcov" args) ;;
  let lines := split_lines (trim output) in
  let lines := tl lines in
  let lines := removelast lines in
  let lines := removelast lines in
  pr <- payload_pull_request "number" ;;
  changedFiles <- call (ListFiles (pr_number pr)) (changed_files env) ;;
  changedFilesFilter lines changedFiles.

(** [errorMessage] of [run] *)
Definition errorMessage (totalCoverage : float) (minimumCoverage : string) : string :=
  "The code coverage is too low: " ++ NumberToString totalCoverage
  ++ ". Expected at least " ++ minimumCoverage ++ ".".

(** [isMinimumCoverageReached] of [run]: a number compared with a
    string, which [>=] first turns into a number. *)
Definition isMinimumCoverageReached (totalCoverage : float) (minimumCoverage : string) : bool :=
  js_ge totalCoverage (StringToNumber minimumCoverage).

(** [commentHeaderPrefix] of [run] *)
Definition commentHeaderPrefix (titlePrefix : string) : string :=
  "### " ++ (if truthy titlePrefix then titlePrefix ++ " " else "")
  ++ "[LCOV](https://github.com/marketplace/actions/report-lcov) of commit".

(** [diffMessage] of [run] *)
Definition diffMessage (totalCoverage : float) (previousCoverage : option PreviousCoverage)
    (sha : string) : string :=
  match previousCoverage with
  | Some previous =>
      let compareUrl := "https://github.com/" ++ owner env ++ "/" ++ repo env ++ "/compare/"
                        ++ targetBranchSha previous ++ "..." ++ sha in
      let diff := PrimFloat.sub totalCoverage (coverage previous) in
      let diffRounded := toFixed2 diff in
      let sign := if js_gt diff PrimFloat.zero then "+" else "" in
      "This pull request changes total coverage " ++ sign ++ diffRounded ++ "% ("
      ++ toFixed2 (coverage previous) ++ "% -> " ++ toFixed2 totalCoverage
      ++ "%) for this [diff](" ++ compareUrl ++ ")"
  | None => "Total coverage: " ++ toFixed2 totalCoverage ++ "%"
  end.

(** [body] of [run], before the gate notice is appended *)
Definition commentBody (titlePrefix additionalMessage : string) (pr : PullRequest)
    (totalCoverage : float) (previousCoverage : option PreviousCoverage)
    (summary details : string) : string :=
  let sha := pr_head_sha pr in
  let shaShort := substr0 7 sha in
  commentHeaderPrefix titlePrefix ++ " [<code>" ++ shaShort ++ "</code>]("
  ++ decimal (pr_number pr) ++ "/commits/" ++ sha ++ ") during [" ++ workflow env ++ " #"
  ++ decimal (runNumber env) ++ "](../actions/runs/" ++ decimal (context_runId env) ++ ")"
  ++ LF ++ diffMessage totalCoverage previousCoverage sha ++ LF
  ++ "<pre>" ++ summary ++ LF ++ LF ++ "Files changed coverage rate:" ++ details ++ "</pre>"
  ++ (if truthy additionalMessage then LF ++ additionalMessage else "").

Definition run : Action unit :=
  try_catch
    (let tmpPath := path_resolve (tmpdir env) (action env) in
     let coverageFilesPattern := getInput env "coverage-files" in
     coverageFiles <- call (Glob coverageFilesPattern) (glob_result env coverageFilesPattern) ;;
     let titlePrefix := getInput env "title-prefix" in
     let additionalMessage := getInput env "additional-message" in
     let updateComment := getInput env "update-comment" =? "true" in
     let coverageArtifactName := getInput env "coverage-artifact-name" in
     genhtml coverageFiles tmpPath ;;
     coverageFile <- mergeCoverages coverageFiles tmpPath ;;
     totalCoverage <- call (LcovTotal (Some coverageFile)) (lcov_total env (Some coverageFile)) ;;
     let gitHubToken := trim (getInput env "github-token") in
     let minimumCoverage := getInput env "minimum-coverage" in
     let hasGithubToken := negb (gitHubToken =? "") in
     let isPR := existsb (String.eqb (eventName env)) events in
     call (GetOctokit gitHubToken) tt ;;
     (if hasGithubToken && isPR then
        summary <- summarize coverageFile ;;
        details <- detail coverageFile ;;
        previousCoverage <- calculatePreviousCoverage coverageArtifactName gitHubToken tmpPath ;;
        pr <- payload_pull_request "head" ;;
        let body := commentBody titlePrefix additionalMessage pr totalCoverage
                      previousCoverage summary details in
        let body := if negb (isMinimumCoverageReached totalCoverage minimumCoverage)
                    then body ++ LF ++ ":no_entry: " ++ errorMessage totalCoverage minimumCoverage
                    else body in
        if updateComment then upsertComment body (commentHeaderPrefix titlePrefix)
        else createComment body
      else if negb hasGithubToken then
        core_info "github-token received is empty. Skipping writing a comment in the PR." ;;
        core_info "Note: This could happen even if github-token was provided in workflow file. It could be because your github token does not have permissions for commenting in target repo."
      else if negb isPR then
        core_info "The event is not a pull request. Skipping writing a comment." ;;
        core_info ("The event type is: " ++ eventName env)
      else ret tt) ;;
     (if hasGithubToken && truthy coverageArtifactName then
        core_info "Uploading coverage artifact to the workflow run." ;;
        call (UploadArtifact coverageArtifactName [coverageFile] (path_dirname coverageFile)) tt
      else
        core_info "Skipping coverage artifact upload.") ;;
     core_setOutput "total-coverage" totalCoverage ;;
     if negb (isMinimumCoverageReached totalCoverage minimumCoverage) then
       throw (errorMessage totalCoverage minimumCoverage)
     else ret tt)
    (fun message => core_setFailed message).

End Program.

(** ** Reading a log *)

(** The state a run ends in: failed with the last message given to
    [core.setFailed], or passed when there is none. *)
Fixpoint failure_of (trace : list Event) : option string :=
  match trace with
  | [] => None
  | FailedSet m :: rest =>
      match failure_of rest with
      | Some m' => Some m'
      | None => Some m
      end
  | _ :: rest => failure_of rest
  end.

(** A world with a comment thread and nothing logged yet. *)
Definition start (thread : list Comment) : World :=
  {| comments := thread;
     next_comment_id := 1 + fold_right Z.max 0%Z (map comment_id thread);
     log := [] |}.

(** The log of a whole run from a thread. *)
Definition trace_of {rt : Runtime} (env : Env) (thread : list Comment) : list Event :=
  log (snd (run env (start thread))).

(** ** Predicates the statements use *)

(** [kept] selects elements of [all] without reordering them. *)
Inductive subsequence {A : Type} : list A -> list A -> Prop :=
| subsequence_nil : subsequence [] []
| subsequence_keep (x : A) (kept all : list A) :
    subsequence kept all -> subsequence (x :: kept) (x :: all)
| subsequence_drop (x : A) (kept all : list A) :
    subsequence kept all -> subsequence kept (x :: all).

(** The test the filter callback applies to a data row. *)
Definition touches (changedFiles : list string) (row : string) : bool :=
  existsb (startsWith row) changedFiles.

(** The world after more events were logged. *)
Definition after (w : World) (evs : list Event) : World :=
  {| comments := comments w; next_comment_id := next_comment_id w;
     log := (log w ++ evs)%list |}.

(** Events that neither set an output nor fail the run. *)
Definition plain (e : Event) : Prop :=
  match e with
  | Called _ | Logged _ _ => True
  | OutputSet _ _ | FailedSet _ => False
  end.

(** The calls of the baseline lookup, all made inside the [try] of
    [calculatePreviousCoverage]. *)
Definition lookup_call (c : Call) : bool :=
  match c with
  | ListWorkflowRuns _ _ | GetArtifact _ _ | DownloadArtifact _ _ _ | Readdir _ => true
  | _ => false
  end.

(** The requests that write the report comment. *)
Definition publish_call (e : Event) : Prop :=
  match e with
  | Called (CreateComment _ _) | Called (UpdateComment _ _) => True
  | _ => False
  end.

(** Two judgements on actions, and a third for the comment. *)

(** [emits P m]: whatever [m] does, it only appends events, all in [P]. *)
Definition emits {A : Type} (P : Event -> Prop) (m : Action A) : Prop :=
  forall w, exists evs, log (snd (m w)) = (log w ++ evs)%list /\ Forall P evs.

(** [completes P m]: moreover [m] returns. *)
Definition completes {A : Type} (P : Event -> Prop) (m : Action A) : Prop :=
  forall w, exists a w' evs,
    m w = (Returned a, w') /\ log w' = (log w ++ evs)%list /\ Forall P evs.

(** [publishes m]: [m] returns, logs plain events only, and among them a
    request that writes the comment. *)
Definition publishes {A : Type} (m : Action A) : Prop :=
  forall w, exists a w' evs,
    m w = (Returned a, w') /\ log w' = (log w ++ evs)%list
    /\ Forall plain evs /\ Exists publish_call evs.

(** No call outside the baseline lookup raises. *)
Definition only_lookup_faults (env : Env) : Prop :=
  forall c, lookup_call c = false -> fault env c = None.

(** Names of [run] that the statements share. *)
Definition tmpPath {rt : Runtime} (env : Env) : string :=
  path_resolve (tmpdir env) (action env).

Definition mergedCoverageFile {rt : Runtime} (env : Env) : string :=
  tmpPath env ++ "/lcov.info".

Definition totalCoverage {rt : Runtime} (env : Env) : float :=
  lcov_total env (Some (mergedCoverageFile env)).

Definition hasGithubToken {rt : Runtime} (env : Env) : bool :=
  negb (trim (getInput env "github-token") =? "").

Definition isPR (env : Env) : bool :=
  existsb (String.eqb (eventName env)) events.

(** A pull-request event carries its pull request in the payload. *)
Definition payload_ok (env : Env) : Prop :=
  isPR env = true -> pull_request env <> None.

(** Whether a comment carries the header marker. *)
Definition marked (marker : string) (c : Comment) : bool :=
  includes (comment_body c) marker.

(** Whether an event sets an output. *)
Definition sets_output (e : Event) : bool :=
  match e with
  | OutputSet _ _ => true
  | _ => false
  end.

(** The directory [genhtml] renders the HTML report into. *)
Definition htmlDirectory {rt : Runtime} (env : Env) : string :=
  trim (path_resolve (tmpPath env) "html").


(** Whether a string consists of decimal digits. *)
Fixpoint all_digits (s : string) : bool :=
  match s with
  | EmptyString => true
  | String c rest =>
      let n := nat_of_ascii c in
      ((48 <=? n) && (n <=? 57))%nat && all_digits rest
  end.

(** The head line of the comment: [body] of [run] up to the first line
    feed. *)
Definition commentHeadLine {rt : Runtime} (env : Env) (titlePrefix : string)
    (pr : PullRequest) : string :=
  commentHeaderPrefix titlePrefix ++ " [<code>" ++ substr0 7 (pr_head_sha pr) ++ "</code>]("
  ++ decimal (pr_number pr) ++ "/commits/" ++ pr_head_sha pr ++ ") during [" ++ workflow env
  ++ " #" ++ decimal (runNumber env) ++ "](../actions/runs/" ++ decimal (context_runId env)
  ++ ")".

(** The trace files a command line of the aggregation tool adds: the
    arguments that follow its leading [--add-tracefile] flags. *)
Fixpoint added_tracefiles (args : list string) : list string :=
  match args with
  | flag :: file :: rest =>
      if flag =? "--add-tracefile" then file :: added_tracefiles rest else []
  | _ => []
  end.

(** Whether a character occurs in a string. *)
Fixpoint has_char (c : ascii) (s : string) : bool :=
  match s with
  | EmptyString => false
  | String d rest => Ascii.eqb d c || has_char c rest
  end.

(** What the filter returns for the lines it kept. *)
Definition rendered (kept : list string) : string :=
  if (List.length kept =? 3)%nat then " n/a"
  else LF ++ "  " ++ join (LF ++ "  ") kept.

(** The notice [run] appends to the comment body when the coverage is
    below the minimum. *)
Definition gate_notice {rt : Runtime} (env : Env) : string :=
  if isMinimumCoverageReached (totalCoverage env) (getInput env "minimum-coverage") then ""
  else LF ++ ":no_entry: "
       ++ errorMessage (totalCoverage env) (getInput env "minimum-coverage").

(** What an action returns from the start of a run, [default] when it
    raises there. *)
Definition value_of {A : Type} (default : A) (m : Action A) : A :=
  match fst (m (start [])) with
  | Returned a => a
  | Thrown _ => default
  end.

(** [steady m]: whether [m] raises, and what it returns, does not depend
    on the world it starts from. *)
Definition steady {A : Type} (m : Action A) : Prop :=
  forall w w', fst (m w) = fst (m w').

(** What the three helpers of the comment return in a run: the baseline
    [calculatePreviousCoverage] resolves, the text of [summarize] and
    the text of [detail]. *)
Definition resolved_baseline {rt : Runtime} (env : Env) : option PreviousCoverage :=
  value_of None
    (calculatePreviousCoverage env (getInput env "coverage-artifact-name")
       (trim (getInput env "github-token")) (tmpPath env)).

Definition summary_text {rt : Runtime} (env : Env) : string :=
  value_of "" (summarize env (mergedCoverageFile env)).

Definition details_text {rt : Runtime} (env : Env) : string :=
  value_of "" (detail env (mergedCoverageFile env)).

(** The body of the comment of a run on pull request [pr]: [body] of
    [run] composed from the run's coverage, resolved baseline, summary
    and detail, followed by the gate notice. *)
Definition published_body {rt : Runtime} (env : Env) (pr : PullRequest) : string :=
  commentBody env (getInput env "title-prefix") (getInput env "additional-message") pr
    (totalCoverage env) (resolved_baseline env) (summary_text env) (details_text env)
  ++ gate_notice env.

(** A request that writes a comment carries the body of this run's
    comment, for the pull request of the payload. *)
Definition writes_body {rt : Runtime} (env : Env) (e : Event) : Prop :=
  match e with
  | Called (CreateComment _ body) | Called (UpdateComment _ body) =>
      exists pr, pull_request env = Some pr /\ body = published_body env pr
  | _ => True
  end.

(** A request that writes a comment writes the report of this run: the
    body of this run's comment, which starts with the header marker. *)
Definition writes_report {rt : Runtime} (env : Env) (e : Event) : Prop :=
  match e with
  | Called (CreateComment _ body) | Called (UpdateComment _ body) =>
      (exists pr, pull_request env = Some pr /\ body = published_body env pr)
      /\ startsWith body (commentHeaderPrefix (getInput env "title-prefix")) = true
  | _ => True
  end.

(** A request that writes a comment carries, under the head line, the
    message line for the baseline this run resolved. *)
Definition reports_baseline {rt : Runtime} (env : Env) (e : Event) : Prop :=
  match e with
  | Called (CreateComment _ body) | Called (UpdateComment _ body) =>
      exists pr rest,
        pull_request env = Some pr
        /\ body = commentHeadLine env (getInput env "title-prefix") pr ++ LF
                  ++ diffMessage env (totalCoverage env) (resolved_baseline env)
                       (pr_head_sha pr)
                  ++ LF ++ rest
  | _ => True
  end.

(** A call outside the baseline lookup is answered when it does not
    raise. *)
Definition answered (env : Env) (e : Event) : Prop :=
  match e with
  | Called c => lookup_call c = false -> fault env c = None
  | _ => True
  end.

(** The events an action logged before it raised [message]: either every
    call outside the lookup was answered, or the last event is the call
    outside the lookup that raised [message]. *)
Definition raised_by (env : Env) (message : string) (evs : list Event) : Prop :=
  Forall (answered env) evs
  \/ exists pre c,
       evs = (pre ++ [Called c])%list /\ Forall (answered env) pre
       /\ lookup_call c = false /\ fault env c = Some message.

(** [accounts env m]: [m] only appends events; when it returns, every
    call it made outside the lookup was answered, and when it raises, the
    events are [raised_by] the message. *)
Definition accounts {A : Type} (env : Env) (m : Action A) : Prop :=
  forall w, exists evs,
    log (snd (m w)) = (log w ++ evs)%list
    /\ match fst (m w) with
       | Returned _ => Forall (answered env) evs
       | Thrown message => raised_by env message evs
       end.

(** Every call a run makes outside the baseline lookup returns. *)
Definition undisturbed {rt : Runtime} (env : Env) (thread : list Comment) : Prop :=
  forall c, In (Called c) (trace_of env thread) -> lookup_call c = false -> fault env c = None.

(** The same world, in which no call outside the baseline lookup
    raises. *)
Definition silenced (env : Env) : Env := {|
  getInput := getInput env;
  eventName := eventName env;
  pull_request := pull_request env;
  owner := owner env;
  repo := repo env;
  action := action env;
  workflow := workflow env;
  runNumber := runNumber env;
  context_runId := context_runId env;
  tmpdir := tmpdir env;
  glob_result := glob_result env;
  exec_output := exec_output env;
  lcov_total := lcov_total env;
  changed_files := changed_files env;
  workflow_runs := workflow_runs env;
  artifact_id := artifact_id env;
  readdir := readdir env;
  fault := fun c => if lookup_call c then fault env c else None;
|}.

(** [agrees env m m']: from every world, [m] does what [m'] does, or [m]
    raises after a call outside the lookup that raised. *)
Definition agrees {A : Type} (env : Env) (m m' : Action A) : Prop :=
  forall w,
    m w = m' w
    \/ exists message c,
         fst (m w) = Thrown message /\ In (Called c) (log (snd (m w)))
         /\ lookup_call c = false /\ fault env c <> None.

(** Events that neither list nor rewrite existing comments. *)
Definition leaves_comments_alone (e : Event) : Prop :=
  match e with
  | Called (ListComments _) | Called (UpdateComment _ _) => False
  | _ => True
  end.

(** Events that concern neither the pull request nor the baseline, set
    no output and fail nothing: tools, globs, uploads, the client and
    log lines. *)
Definition local_event (e : Event) : Prop :=
  match e with
  | Called (Glob _) | Called (Exec _ _ _) | Called (LcovTotal _) | Called (GetOctokit _)
  | Called (UploadArtifact _ _ _) | Logged _ _ => True
  | _ => False
  end.

(** Events that are no request about the pull request, its comments or
    the baseline. *)
Definition off_pull_request (e : Event) : Prop :=
  match e with
  | Called (ListFiles _) | Called (ListComments _)
  | Called (CreateComment _ _) | Called (UpdateComment _ _)
  | Called (ListWorkflowRuns _ _) | Called (GetArtifact _ _)
  | Called (DownloadArtifact _ _ _) | Called (Readdir _) => False
  | _ => True
  end.

(** The three ways a run ends: aborted by an error before the output,
    passed, or failed by the gate right after the output. *)
Inductive run_end {rt : Runtime} (env : Env) : list Event -> Prop :=
| run_aborted (pre : list Event) (message : string) :
    Forall plain pre -> run_end env (pre ++ [FailedSet message])
| run_passed (pre : list Event) :
    Forall plain pre ->
    isMinimumCoverageReached (totalCoverage env) (getInput env "minimum-coverage") = true ->
    run_end env (pre ++ [OutputSet "total-coverage" (totalCoverage env)])
| run_gated (pre : list Event) :
    Forall plain pre ->
    isMinimumCoverageReached (totalCoverage env) (getInput env "minimum-coverage") = false ->
    run_end env (pre ++ [OutputSet "total-coverage" (totalCoverage env);
                         FailedSet (errorMessage (totalCoverage env)
                                                 (getInput env "minimum-coverage"))]).

(** [settles env m]: inside the [try] of [run], from a log of plain
    events, [m] leads to one of the three ends. *)
Definition settles {rt : Runtime} (env : Env) (m : Action unit) : Prop :=
  forall w, Forall plain (log w) ->
            run_end env (log (snd (try_catch m core_setFailed w))).

(** How the log of a run opens when no call raises: the glob, the HTML
    report (uploaded when it has an artifact name), the merge, the
    aggregate coverage and the client. *)
Definition opening_trace {rt : Runtime} (env : Env) : list Event :=
  let coverageFiles := glob_result env (getInput env "coverage-files") in
  let workingDirectory :=
    if truthy (trim (getInput env "working-directory"))
    then trim (getInput env "working-directory") else "./" in
  let artifactName := trim (getInput env "artifact-name") in
  ([Called (Glob (getInput env "coverage-files"));
    Called (Exec "genhtml"
              (coverageFiles ++ ["--rc"; "lcov_branch_coverage=1"]
               ++ ["--output-directory"; htmlDirectory env])
              (Some workingDirectory))]
   ++ (if negb (artifactName =? "")
       then [Called (Glob (htmlDirectory env ++ "/**/**.*"));
             Logged LInfo "Uploading artifacts.";
             Called (UploadArtifact artifactName
                       (glob_result env (htmlDirectory env ++ "/**/**.*"))
                       (htmlDirectory env))]
       else [Logged LInfo "Skip uploading artifacts"])
   ++ [Called (Exec "lcov"
                 ((flat_map (fun coverageFile => ["--add-tracefile"; coverageFile]) coverageFiles
                   ++ ["--output-file"; mergedCoverageFile env])
                  ++ ["--rc"; "lcov_branch_coverage=1"])
                 None);
       Called (LcovTotal (Some (mergedCoverageFile env)));
       Called (GetOctokit (trim (getInput env "github-token")))])%list.

(** The log of a run with a token on an event that is no pull request,
    in which no call raises. *)
Definition non_pr_trace {rt : Runtime} (env : Env) : list Event :=
  let coverageArtifactName := getInput env "coverage-artifact-name" in
  let minimum := getInput env "minimum-coverage" in
  (opening_trace env
   ++ [Logged LInfo "The event is not a pull request. Skipping writing a comment.";
       Logged LInfo ("The event type is: " ++ eventName env)]
   ++ (if truthy coverageArtifactName
       then [Logged LInfo "Uploading coverage artifact to the workflow run.";
             Called (UploadArtifact coverageArtifactName [mergedCoverageFile env]
                       (path_dirname (mergedCoverageFile env)))]
       else [Logged LInfo "Skipping coverage artifact upload."])
   ++ [OutputSet "total-coverage" (totalCoverage env)]
   ++ (if isMinimumCoverageReached (totalCoverage env) minimum then []
       else [FailedSet (errorMessage (totalCoverage env) minimum)]))%list.

(** The log of a run with a token on a pull-request event whose payload
    carries no pull request, in which no call raises. *)
Definition missing_payload_trace {rt : Runtime} (env : Env) : list Event :=
  (opening_trace env
   ++ [Called (Exec "lcov" ["--summary"; mergedCoverageFile env; "--rc";
                            "lcov_branch_coverage=1"] None);
       Called (Exec "lcov" ["--list"; mergedCoverageFile env; "--list-full-path"; "--rc";
                            "lcov_branch_coverage=1"] None);
       FailedSet "Cannot read properties of undefined (reading 'number')"])%list.

(** ** A concrete runtime and concrete runs

    The scenarios below fix a runtime and an outside world, so that the
    program can be run.  The runtime's conversions are those of
    ECMAScript and Node on the values the scenarios use: ASCII strings,
    the empty string and unsigned decimal integer literals as numeric
    strings, integers below 2^53 as numbers to print, and normalised
    absolute directories joined with plain segments. *)
Module Scenario.

Definition is_space (c : ascii) : bool :=
  let n := nat_of_ascii c in
  ((9 <=? n) && (n <=? 13) || (n =? 32))%nat.

Fixpoint trim_start (s : string) : string :=
  match s with
  | EmptyString => EmptyString
  | String c rest => if is_space c then trim_start rest else s
  end.

Fixpoint reverse (s acc : string) : string :=
  match s with
  | EmptyString => acc
  | String c rest => reverse rest (String c acc)
  end.

Definition trim_ascii (s : string) : string :=
  reverse (trim_start (reverse (trim_start s) EmptyString)) EmptyString.

Fixpoint digits_value (s : string) (acc : Z) : option Z :=
  match s with
  | EmptyString => Some acc
  | String c rest =>
      let n := nat_of_ascii c in
      if ((48 <=? n) && (n <=? 57))%nat
      then digits_value rest (acc * 10 + Z.of_nat (n - 48))
      else None
  end.

Definition float_of_Z (z : Z) : float := PrimFloat.of_uint63 (Uint63.of_Z z).

(** The empty string is 0, digits are their integer, anything else here
    is NaN. *)
Definition string_to_number (s : string) : float :=
  match digits_value s 0 with
  | Some z => float_of_Z z
  | None => PrimFloat.nan
  end.

(** Integers print as their digits; NaN and the infinities by name. *)
Definition number_to_string (x : float) : string :=
  match Prim2SF x with
  | S754_zero _ => "0"
  | S754_infinity s => if s then "-Infinity" else "Infinity"
  | S754_nan => "NaN"
  | S754_finite s m e =>
      (if s then "-" else "")
      ++ decimal (if (0 <=? e)%Z then Z.pos m * 2 ^ e else Z.pos m / 2 ^ (- e))
  end.

Fixpoint drop_last_segment (s : string) : string * bool :=
  match s with
  | EmptyString => (EmptyString, false)
  | String c rest =>
      let (d, seen) := drop_last_segment rest in
      if seen then (String c d, true)
      else if Ascii.eqb c "/" then (EmptyString, true)
      else (EmptyString, false)
  end.

#[export] Instance node : Runtime := {|
  NumberToString := number_to_string;
  StringToNumber := string_to_number;
  trim := trim_ascii;
  path_resolve := fun from to => from ++ "/" ++ to;
  path_dirname := fun p => fst (drop_last_segment p);
  path_join := fun dir file => dir ++ "/" ++ file;
|}.

Fixpoint lookup (table : list (string * string)) (name : string) : string :=
  match table with
  | [] => ""
  | (k, v) :: rest => if k =? name then v else lookup rest name
  end.

Definition lcov_list_output : string :=
  "Reading tracefile /tmp/lcov/lcov.info" ++ LF
  ++ "            |Lines       |Functions  |Branches" ++ LF
  ++ "Filename    |Rate     Num|Rate    Num|Rate     Num" ++ LF
  ++ "==================================================" ++ LF
  ++ "src/a.c     | 100%     10| 100%     2|    -      0" ++ LF
  ++ "src/b.c     |70.0%     20| 100%     3|    -      0" ++ LF
  ++ "==================================================" ++ LF
  ++ "      Total:|80.0%     30| 100%     5|    -      0".

Definition lcov_summary_output : string :=
  "Reading tracefile /tmp/lcov/lcov.info" ++ LF
  ++ "Summary coverage rate:" ++ LF
  ++ "  lines......: 85.0% (85 of 100 lines)".

(** A pull request #7 onto [main]; the merged trace covers 85 percent,
    the baseline trace 80; the service answers every call. *)
Definition world (inputs : list (string * string)) (runs : list WorkflowRun)
    (fault : Call -> option string) : Env := {|
  getInput := lookup inputs;
  eventName := "pull_request";
  pull_request := Some {| pr_number := 7; pr_head_sha := "0123456789abcdef"; pr_base_ref := "main" |};
  owner := "octo";
  repo := "demo";
  action := "lcov";
  workflow := "CI";
  runNumber := 3;
  context_runId := 1003;
  tmpdir := "/tmp";
  glob_result := fun pattern =>
    if pattern =? "cov/*.info" then ["cov/unit.info"; "cov/e2e.info"]
    else ["/tmp/lcov/html/index.html"];
  exec_output := fun cmd args =>
    match args with
    | "--summary" :: _ => lcov_summary_output
    | "--list" :: _ => lcov_list_output
    | _ => ""
    end;
  lcov_total := fun path =>
    match path with
    | Some "/tmp/lcov/lcov.info" => 85%float
    | _ => 80%float
    end;
  changed_files := ["src/b.c"; "README.md"];
  workflow_runs := runs;
  artifact_id := fun name findBy => Some 500%Z;
  readdir := fun dir => ["lcov.info"];
  fault := fault;
|}.

Definition no_fault : Call -> option string := fun _ => None.

Definition main_runs : list WorkflowRun :=
  [ {| run_id := 12; run_head_branch := "main"; run_head_sha := "bbbbbbb"; run_conclusion := "failure" |};
    {| run_id := 11; run_head_branch := "main"; run_head_sha := "aaaaaaa"; run_conclusion := "success" |} ].

(** A token, an artifact name for the merged trace, and a minimum. *)
Definition inputs_with_minimum (minimum : string) : list (string * string) :=
  [ ("coverage-files", "cov/*.info"); ("github-token", "secret");
    ("coverage-artifact-name", "coverage"); ("minimum-coverage", minimum) ].

Definition gated_inputs : list (string * string) := inputs_with_minimum "90".

(** No token, but an artifact name for the HTML report. *)
Definition tokenless_inputs : list (string * string) :=
  [ ("coverage-files", "cov/*.info"); ("coverage-artifact-name", "coverage");
    ("artifact-name", "coverage-html"); ("minimum-coverage", "80") ].

(** The host refuses to create the comment. *)
Definition comment_refused : Call -> option string :=
  fun c => match c with
           | CreateComment _ _ => Some "Resource not accessible by integration"
           | _ => None
           end.

(** The HTML tool exits with an error. *)
Definition genhtml_fails : Call -> option string :=
  fun c => match c with
           | Exec "genhtml" _ _ => Some "The process '/usr/bin/genhtml' failed with exit code 1"
           | _ => None
           end.

(** The workflow-run listing cannot be reached. *)
Definition listing_unreachable : Call -> option string :=
  fun c => match c with
           | ListWorkflowRuns _ _ => Some "connect ETIMEDOUT"
           | _ => None
           end.

(** The client refuses an empty token, as [getOctokit] of the toolkit
    does. *)
Definition client_refuses_empty_token : Call -> option string :=
  fun c => match c with
           | GetOctokit "" => Some "Parameter token or opts.auth is required"
           | _ => None
           end.

(** Thirty comments of a discussion, none of them a report. *)
Definition discussion : list Comment :=
  map (fun n => {| comment_id := Z.of_nat n; comment_body := "Looks good to me." |})
      (seq 1 30).

Definition report_marker : string := commentHeaderPrefix "".

Definition first_report : string := report_marker ++ " 1111111" ++ LF ++ "Total coverage: 80.00%".
Definition second_report : string := report_marker ++ " 2222222" ++ LF ++ "Total coverage: 85.00%".

(** The comment thread after two publications in update mode. *)
Definition thread_after_two_reports (env : Env) (thread : list Comment) : list Comment :=
  comments (snd ((upsertComment env first_report report_marker ;;
                  upsertComment env second_report report_marker) (start thread))).

Definition is_report (c : Comment) : bool := includes (comment_body c) report_marker.

(** The runs the scenarios are about. *)
Definition gated_run : Env := world gated_inputs main_runs no_fault.
Definition passing_run : Env := world (inputs_with_minimum "80") main_runs no_fault.
Definition refused_run : Env := world gated_inputs main_runs comment_refused.
Definition broken_tool_run : Env := world gated_inputs main_runs genhtml_fails.
Definition unreachable_run : Env := world (inputs_with_minimum "80") main_runs listing_unreachable.
Definition tokenless_run : Env := world tokenless_inputs main_runs client_refuses_empty_token.
Definition non_numeric_run : Env := world (inputs_with_minimum "abc") main_runs no_fault.

Definition baseline_scope : FindBy :=
  {| fb_token := "secret"; fb_workflowRunId := 12;
     fb_repositoryOwner := "octo"; fb_repositoryName := "demo" |}.

Definition baseline_directory : string := "/tmp/lcov/12-coverage-lcov.info".

(** A baseline of 80 percent, recorded by run 11. *)
Definition baseline_80 : PreviousCoverage :=
  {| coverage := 80%float; prev_path := Some "/tmp/lcov/11-coverage-lcov.info/lcov.info";
     runId := 11; targetBranchSha := "aaaaaaa" |}.


(** The same world on a push: no pull-request event, no pull request in
    the payload. *)
Definition on_push (env : Env) : Env := {|
  getInput := getInput env;
  eventName := "push";
  pull_request := None;
  owner := owner env;
  repo := repo env;
  action := action env;
  workflow := workflow env;
  runNumber := runNumber env;
  context_runId := context_runId env;
  tmpdir := tmpdir env;
  glob_result := glob_result env;
  exec_output := exec_output env;
  lcov_total := lcov_total env;
  changed_files := changed_files env;
  workflow_runs := workflow_runs env;
  artifact_id := artifact_id env;
  readdir := readdir env;
  fault := fault env;
|}.

(** The same world with a pull-request event whose payload carries no
    pull request. *)
Definition without_payload (env : Env) : Env := {|
  getInput := getInput env;
  eventName := eventName env;
  pull_request := None;
  owner := owner env;
  repo := repo env;
  action := action env;
  workflow := workflow env;
  runNumber := runNumber env;
  context_runId := context_runId env;
  tmpdir := tmpdir env;
  glob_result := glob_result env;
  exec_output := exec_output env;
  lcov_total := lcov_total env;
  changed_files := changed_files env;
  workflow_runs := workflow_runs env;
  artifact_id := artifact_id env;
  readdir := readdir env;
  fault := fault env;
|}.

(** The downloaded baseline file cannot be read. *)
Definition baseline_unreadable : Call -> option string :=
  fun c => match c with
           | LcovTotal (Some "/tmp/lcov/12-coverage-lcov.info/lcov.info") =>
               Some "ENOENT: no such file or directory"
           | _ => None
           end.

(** Runs on another branch only. *)
Definition other_runs : list WorkflowRun :=
  [ {| run_id := 21; run_head_branch := "develop"; run_head_sha := "ccccccc";
       run_conclusion := "success" |} ].

Definition push_run : Env := on_push gated_run.
Definition payloadless_run : Env := without_payload gated_run.
Definition unreadable_run : Env := world gated_inputs main_runs baseline_unreadable.
Definition branchless_run : Env := world gated_inputs other_runs no_fault.

(** Two comments of a discussion, and the same thread after a report
    was published between them. *)
Definition short_thread : list Comment :=
  [ {| comment_id := 1; comment_body := "Looks good to me." |};
    {| comment_id := 2; comment_body := "Please rebase." |} ].

Definition reported_thread : list Comment :=
  [ {| comment_id := 1; comment_body := "Looks good to me." |};
    {| comment_id := 2; comment_body := first_report |};
    {| comment_id := 3; comment_body := "Please rebase." |} ].

End Scenario.

(** * Properties *)

Import Scenario.

(** ** The monad *)

Lemma bind_returned {A B : Type} (m : Action A) (k : A -> Action B) (w w' : World) (a : A) :
  m w = (Returned a, w') -> bind m k w = k a w'.
Proof. intros E. unfold bind. now rewrite E. Qed.

Lemma bind_thrown {A B : Type} (m : Action A) (k : A -> Action B) (w w' : World) (e : string) :
  m w = (Thrown e, w') -> bind m k w = (Thrown e, w').
Proof. intros E. unfold bind. now rewrite E. Qed.

Lemma bind_assoc {A B C : Type} (m : Action A) (k : A -> Action B) (h : B -> Action C)
    (w : World) :
  bind (bind m k) h w = bind m (fun a => bind (k a) h) w.
Proof. unfold bind. now destruct (m w) as [[a | e] w']. Qed.

Lemma bind_ret {A B : Type} (a : A) (k : A -> Action B) (w : World) :
  bind (ret a) k w = k a w.
Proof. reflexivity. Qed.

(** A sequence that returns went through both of its parts. *)
Lemma bind_inversion {A B : Type} (m : Action A) (k : A -> Action B) (w w' : World) (b : B) :
  bind m k w = (Returned b, w') ->
  exists a w1, m w = (Returned a, w1) /\ k a w1 = (Returned b, w').
Proof.
  unfold bind. destruct (m w) as [[a | e] w1]; intros E.
  - now exists a, w1.
  - discriminate.
Qed.

(** ** The changed-file filter *)

Section ChangedFiles.

Lemma matchesChangedFile_value (line : string) (changedFiles : list string) (w : World) :
  exists w', matchesChangedFile line changedFiles w = (Returned (touches changedFiles line), w')
             /\ comments w' = comments w.
Proof.
  revert w. induction changedFiles as [| f rest IH]; intros w; simpl.
  - now exists w.
  - unfold bind, console_log, emit. destruct (startsWith line f); simpl.
    + eexists. split; reflexivity.
    + destruct (IH {| comments := comments w; next_comment_id := next_comment_id w;
                      log := (log w ++ [Logged LConsole (line ++ " === " ++ f)])%list |})
        as (w' & E & Hc).
      exists w'. now split.
Qed.

(** Past the header, [filterLines] keeps exactly the rows that touch a
    changed file. *)
Lemma filterLines_rows (rows changedFiles : list string) (index : nat) (w : World) :
  (3 <= index)%nat ->
  exists w', filterLines rows index changedFiles w
             = (Returned (filter (touches changedFiles) rows), w')
             /\ comments w' = comments w.
Proof.
  revert index w. induction rows as [| row rest IH]; intros index w Hi; simpl.
  - now exists w.
  - destruct (Nat.leb_spec index 2) as [Hle | _]; [lia |].
    destruct (matchesChangedFile_value row changedFiles w) as (w1 & E1 & C1).
    rewrite (bind_returned _ _ _ _ _ E1).
    destruct (IH (S index) w1 ltac:(lia)) as (w2 & E2 & C2).
    rewrite (bind_returned _ _ _ _ _ E2).
    exists w2. split; [reflexivity | congruence].
Qed.

Lemma filterLines_listing (h1 h2 h3 : string) (rows changedFiles : list string) (w : World) :
  exists w', filterLines (h1 :: h2 :: h3 :: rows) 0 changedFiles w
             = (Returned (h1 :: h2 :: h3 :: filter (touches changedFiles) rows), w')
             /\ comments w' = comments w.
Proof.
  destruct (filterLines_rows rows changedFiles 3 w ltac:(lia)) as (w' & E & C).
  exists w'. split; [| exact C].
  simpl. unfold bind at 1 2 3 4 5 6. simpl. now rewrite E.
Qed.

Lemma filter_subsequence {A : Type} (p : A -> bool) (l : list A) :
  subsequence (filter p l) l.
Proof.
  induction l as [| x l IH]; simpl.
  - constructor.
  - destruct (p x); now constructor.
Qed.

Lemma touches_spec (changedFiles : list string) (row : string) :
  touches changedFiles row = true
  <-> exists changedFile, In changedFile changedFiles /\ startsWith row changedFile = true.
Proof. unfold touches. apply existsb_exists. Qed.

(** C4. For a listing of three header lines [h1], [h2], [h3] followed
    by data rows, the changed-file filter returns the header followed by
    the rows it kept, each line on its own indented line; a row is kept
    if and only if it starts with a path of the changed-file set; the
    kept rows are in their original order; and when no row is kept, in
    particular when the changed-file set is empty, the result is the
    [" n/a"] marker. *)
Theorem C4_changed_file_filter
    (h1 h2 h3 : string) (rows changedFiles : list string) (w : World) :
  let kept := filter (touches changedFiles) rows in
  (exists w',
      changedFilesFilter (h1 :: h2 :: h3 :: rows) changedFiles w
      = (Returned (match kept with
                   | [] => " n/a"
                   | _ :: _ => LF ++ "  " ++ join (LF ++ "  ") (h1 :: h2 :: h3 :: kept)
                   end), w')
      /\ comments w' = comments w)
  /\ (forall row, In row kept
                  <-> In row rows
                      /\ exists changedFile, In changedFile changedFiles
                                             /\ startsWith row changedFile = true)
  /\ subsequence kept rows
  /\ (changedFiles = [] -> kept = []).
Proof.
  intros kept. split; [| split; [| split]].
  - destruct (filterLines_listing h1 h2 h3 rows changedFiles w) as (w' & E & C).
    exists w'. split; [| exact C].
    unfold changedFilesFilter. rewrite (bind_returned _ _ _ _ _ E).
    fold kept. destruct kept as [| k ks]; reflexivity.
  - intros row. unfold kept. rewrite filter_In, touches_spec. reflexivity.
  - apply filter_subsequence.
  - intros ->. subst kept. induction rows as [| r rs IH]; simpl; auto.
Qed.

End ChangedFiles.

(** ** Calls, logs and the two judgements on actions *)

Section Judgements.
Context {rt : Runtime} (env : Env).

Lemma emit_after (e : Event) (w : World) : emit e w = (Returned tt, after w [e]).
Proof. reflexivity. Qed.

Lemma call_answers {A : Type} (c : Call) (answer : A) (w : World) :
  fault env c = None -> call env c answer w = (Returned answer, after w [Called c]).
Proof. intros E. unfold call, bind. rewrite emit_after, E. reflexivity. Qed.

Lemma call_raises {A : Type} (c : Call) (answer : A) (w : World) (message : string) :
  fault env c = Some message -> call env c answer w = (Thrown message, after w [Called c]).
Proof. intros E. unfold call, bind. rewrite emit_after, E. reflexivity. Qed.

Lemma completes_emits {A : Type} (P : Event -> Prop) (m : Action A) :
  completes P m -> emits P m.
Proof.
  intros H w. destruct (H w) as (a & w' & evs & E & L & F).
  exists evs. now rewrite E.
Qed.

Section Combinators.
Variable P : Event -> Prop.

Lemma emits_ret {A : Type} (a : A) : emits P (ret a).
Proof. intros w. exists []. simpl. now rewrite app_nil_r. Qed.

Lemma emits_throw {A : Type} (e : string) : emits P (@throw A e).
Proof. intros w. exists []. simpl. now rewrite app_nil_r. Qed.

Lemma emits_emit (e : Event) : P e -> emits P (emit e).
Proof. intros H w. exists [e]. simpl. auto. Qed.

Lemma emits_call {A : Type} (c : Call) (answer : A) :
  P (Called c) -> emits P (call env c answer).
Proof.
  intros H w. exists [Called c]. split; [| auto].
  unfold call, bind. rewrite emit_after. now destruct (fault env c).
Qed.

Lemma emits_bind {A B : Type} (m : Action A) (k : A -> Action B) :
  emits P m -> (forall a, emits P (k a)) -> emits P (bind m k).
Proof.
  intros Hm Hk w. destruct (Hm w) as (e1 & L1 & F1). unfold bind.
  destruct (m w) as [[a | e] w1]; simpl in L1.
  - destruct (Hk a w1) as (e2 & L2 & F2). exists (e1 ++ e2)%list.
    rewrite L2, L1, app_assoc. split; [reflexivity | now apply Forall_app].
  - now exists e1.
Qed.

Lemma emits_try_catch {A : Type} (m : Action A) (h : string -> Action A) :
  emits P m -> (forall e, emits P (h e)) -> emits P (try_catch m h).
Proof.
  intros Hm Hh w. destruct (Hm w) as (e1 & L1 & F1). unfold try_catch.
  destruct (m w) as [[a | e] w1]; simpl in L1.
  - now exists e1.
  - destruct (Hh e w1) as (e2 & L2 & F2). exists (e1 ++ e2)%list.
    rewrite L2, L1, app_assoc. split; [reflexivity | now apply Forall_app].
Qed.

Lemma completes_ret {A : Type} (a : A) : completes P (ret a).
Proof. intros w. exists a, w, []. simpl. now rewrite app_nil_r. Qed.

Lemma completes_emit (e : Event) : P e -> completes P (emit e).
Proof. intros H w. exists tt, (after w [e]), [e]. simpl. auto. Qed.

Lemma completes_call {A : Type} (c : Call) (answer : A) :
  fault env c = None -> P (Called c) -> completes P (call env c answer).
Proof.
  intros E H w. exists answer, (after w [Called c]), [Called c].
  rewrite (call_answers _ _ _ E). simpl. auto.
Qed.

Lemma completes_bind {A B : Type} (m : Action A) (k : A -> Action B) :
  completes P m -> (forall a, completes P (k a)) -> completes P (bind m k).
Proof.
  intros Hm Hk w. destruct (Hm w) as (a & w1 & e1 & E1 & L1 & F1).
  destruct (Hk a w1) as (b & w2 & e2 & E2 & L2 & F2).
  exists b, w2, (e1 ++ e2)%list. rewrite (bind_returned _ _ _ _ _ E1), E2, L2, L1, app_assoc.
  repeat split. now apply Forall_app.
Qed.

(** A [try] whose handler returns always returns. *)
Lemma completes_try_catch {A : Type} (m : Action A) (h : string -> Action A) :
  emits P m -> (forall e, completes P (h e)) -> completes P (try_catch m h).
Proof.
  intros Hm Hh w. destruct (Hm w) as (e1 & L1 & F1). unfold try_catch.
  destruct (m w) as [[a | e] w1]; simpl in L1.
  - now exists a, w1, e1.
  - destruct (Hh e w1) as (b & w2 & e2 & E2 & L2 & F2).
    exists b, w2, (e1 ++ e2)%list. rewrite E2, L2, L1, app_assoc.
    repeat split. now apply Forall_app.
Qed.

End Combinators.

End Judgements.

Create HintDb actions discriminated.
#[export] Hint Resolve emits_ret emits_throw emits_emit emits_call emits_bind emits_try_catch
  completes_ret completes_emit completes_call completes_bind completes_try_catch : actions.
#[export] Hint Unfold core_info core_warning core_debug console_log core_setOutput
  core_setFailed : actions.

(** Steps through an [emits] or [completes] goal along the shape of the
    action; [side] closes the conditions on calls. *)
Ltac act side :=
  repeat first
    [ progress intros
    | apply completes_ret
    | apply emits_ret
    | apply emits_throw
    | apply completes_emit; exact I
    | apply emits_emit; exact I
    | apply emits_call; exact I
    | apply completes_call; [ side | exact I ]
    | apply completes_bind
    | apply emits_bind
    | apply completes_try_catch
    | apply emits_try_catch
    | match goal with
      | |- completes _ (if ?b then _ else _) => destruct b
      | |- emits _ (if ?b then _ else _) => destruct b
      | |- completes _ (match ?x with _ => _ end) => destruct x
      | |- emits _ (match ?x with _ => _ end) => destruct x
      end ].

(** ** The parts of a run in which only the baseline lookup may fail *)

Section Parts.
Context {rt : Runtime} (env : Env).
Hypothesis lookup_only : only_lookup_faults env.

Ltac quiet := apply lookup_only; reflexivity.

Lemma host_createComment_completes (P : Event -> Prop) (body : string) :
  completes P (host_createComment body).
Proof. intros w. eexists tt, _, []. simpl. rewrite app_nil_r. repeat split. constructor. Qed.

Lemma host_updateComment_completes (P : Event -> Prop) (id : Z) (body : string) :
  completes P (host_updateComment id body).
Proof. intros w. eexists tt, _, []. simpl. rewrite app_nil_r. repeat split. constructor. Qed.

Lemma host_listComments_completes (P : Event -> Prop) :
  completes P host_listComments.
Proof. intros w. eexists _, w, []. simpl. rewrite app_nil_r. repeat split. constructor. Qed.

Lemma genhtml_completes (coverageFiles : list string) (tmp : string) :
  completes plain (genhtml env coverageFiles tmp).
Proof. unfold genhtml. autounfold with actions. act quiet. Qed.

Lemma mergeCoverages_returns (coverageFiles : list string) (tmp : string) (w : World) :
  exists evs, mergeCoverages env coverageFiles tmp w = (Returned (tmp ++ "/lcov.info"), after w evs)
              /\ Forall plain evs.
Proof.
  unfold mergeCoverages. eexists. split.
  - erewrite bind_returned by (apply call_answers; quiet). reflexivity.
  - repeat constructor.
Qed.

Lemma summarize_completes (coverageFile : string) :
  completes plain (summarize env coverageFile).
Proof. unfold summarize. act quiet. Qed.

Lemma matchesChangedFile_completes (line : string) (changedFiles : list string) :
  completes plain (matchesChangedFile line changedFiles).
Proof.
  induction changedFiles as [| f rest IH]; simpl; autounfold with actions; act quiet.
  exact IH.
Qed.

Lemma filterLines_completes (lines changedFiles : list string) (index : nat) :
  completes plain (filterLines lines index changedFiles).
Proof.
  revert index. induction lines as [| line rest IH]; intros index; simpl.
  - act quiet.
  - apply completes_bind.
    + destruct (index <=? 2)%nat; [act quiet | apply matchesChangedFile_completes].
    + intros keep. apply completes_bind; [apply IH | act quiet].
Qed.

Lemma payload_pull_request_completes (field : string) :
  pull_request env <> None -> completes plain (payload_pull_request env field).
Proof.
  intros H. unfold payload_pull_request. destruct (pull_request env); [act quiet | congruence].
Qed.

Lemma detail_completes (coverageFile : string) :
  pull_request env <> None -> completes plain (detail env coverageFile).
Proof.
  intros H. unfold detail, changedFilesFilter.
  apply completes_bind; [act quiet |]. intros output.
  apply completes_bind; [now apply payload_pull_request_completes |]. intros pr.
  apply completes_bind; [act quiet |]. intros changedFiles.
  apply completes_bind; [apply filterLines_completes | act quiet].
Qed.

Lemma downloadSingleFileArtifact_emits (artifactName : string) (findBy : FindBy) (dir : string) :
  emits plain (downloadSingleFileArtifact env artifactName findBy dir).
Proof. unfold downloadSingleFileArtifact. autounfold with actions. act quiet. Qed.

Lemma downloadTargetBranchCoverage_emits (artifactName token tmp : string) :
  emits plain (downloadTargetBranchCoverage env artifactName token tmp).
Proof.
  unfold downloadTargetBranchCoverage. autounfold with actions.
  destruct (pull_request env) as [pr |]; [| act quiet].
  apply emits_bind; [act quiet |]. intros _.
  apply emits_bind; [act quiet |]. intros runs.
  destruct runs as [| run0 rest]; [act quiet |].
  apply emits_bind; [act quiet |]. intros _.
  apply emits_bind; [act quiet |]. intros [id |]; [| act quiet].
  apply emits_bind; [apply downloadSingleFileArtifact_emits | act quiet].
Qed.

(** The resolver returns whatever the lookup does. *)
Lemma calculatePreviousCoverage_completes (artifactName token tmp : string) :
  completes plain (calculatePreviousCoverage env artifactName token tmp).
Proof.
  unfold calculatePreviousCoverage. autounfold with actions.
  apply completes_bind.
  - apply completes_try_catch.
    + apply emits_bind; [apply downloadTargetBranchCoverage_emits | act quiet].
    + act quiet.
  - intros [[baseline |] |]; act quiet.
Qed.

End Parts.

(** ** Publishing the comment *)

Section Publishing.
Context {rt : Runtime} (env : Env).
Hypothesis lookup_only : only_lookup_faults env.

Ltac quiet := apply lookup_only; reflexivity.

Lemma createComment_publishes (body : string) :
  pull_request env <> None -> publishes (createComment env body).
Proof.
  intros Hpr w. unfold createComment, payload_pull_request.
  destruct (pull_request env) as [pr |]; [| congruence].
  unfold core_debug. rewrite (bind_returned _ _ _ _ _ (emit_after _ w)).
  rewrite (bind_returned _ _ _ (after w _) pr eq_refl).
  erewrite bind_returned by (apply call_answers; quiet).
  eexists tt, _, [_; _]. split; [reflexivity |]. simpl. rewrite <- app_assoc.
  split; [reflexivity |]. split.
  - repeat constructor.
  - apply Exists_cons_tl, Exists_cons_hd. exact I.
Qed.

Lemma upsertComment_publishes (body marker : string) :
  pull_request env <> None -> publishes (upsertComment env body marker).
Proof.
  intros Hpr w. unfold upsertComment.
  destruct (createComment_publishes body Hpr
              (after (after w [Called (ListComments
                 (match pull_request env with Some pr => pr_number pr | None => 0%Z end))])
                 [Logged LDebug "Comment does not exist, a new comment will be created."]))
    as (u & wc & ec & Ec & Lc & Fc & Xc).
  unfold payload_pull_request in *.
  destruct (pull_request env) as [pr |]; [| congruence].
  rewrite (bind_returned _ _ _ w pr eq_refl).
  erewrite bind_returned by (apply call_answers; quiet).
  rewrite (bind_returned _ _ _ _ _ eq_refl : bind host_listComments _ _ = _).
  destruct (find _ _) as [existing |].
  - unfold core_debug. rewrite (bind_returned _ _ _ _ _ (emit_after _ _)).
    erewrite bind_returned by (apply call_answers; quiet).
    eexists tt, _, [_; _; _]. split; [reflexivity |]. simpl. rewrite <- !app_assoc.
    split; [reflexivity |]. split.
    + repeat constructor.
    + apply Exists_cons_tl, Exists_cons_tl, Exists_cons_hd. exact I.
  - unfold core_debug. rewrite (bind_returned _ _ _ _ _ (emit_after _ _)).
    rewrite Ec. exists u, wc, ([Called (ListComments (pr_number pr));
                                Logged LDebug "Comment does not exist, a new comment will be created."]
                               ++ ec)%list.
    split; [reflexivity |]. rewrite Lc. simpl. rewrite <- !app_assoc. simpl.
    split; [reflexivity |]. split.
    + repeat constructor. exact Fc.
    + apply Exists_cons_tl, Exists_cons_tl. exact Xc.
Qed.

End Publishing.

(** ** A run in which only the baseline lookup may fail reaches the gate *)

Section Gate.
Context {rt : Runtime} (env : Env).
Hypothesis lookup_only : only_lookup_faults env.
Hypothesis payload : payload_ok env.

Ltac quiet := apply lookup_only; reflexivity.

Lemma log_grows_plain (w w' : World) (evs : list Event) :
  Forall plain (log w) -> log w' = (log w ++ evs)%list -> Forall plain evs ->
  Forall plain (log w').
Proof. intros H -> F. now apply Forall_app. Qed.

Lemma run_reaches_gate (thread : list Comment) :
  exists pre,
    trace_of env thread
    = (pre ++ OutputSet "total-coverage" (totalCoverage env)
           :: (if isMinimumCoverageReached (totalCoverage env) (getInput env "minimum-coverage")
               then []
               else [FailedSet (errorMessage (totalCoverage env)
                                             (getInput env "minimum-coverage"))]))%list
    /\ Forall plain pre
    /\ (hasGithubToken env && isPR env = true -> Exists publish_call pre)
    /\ (hasGithubToken env && truthy (getInput env "coverage-artifact-name") = true ->
        In (Called (UploadArtifact (getInput env "coverage-artifact-name")
                      [mergedCoverageFile env] (path_dirname (mergedCoverageFile env)))) pre).
Proof.
  unfold trace_of, run, try_catch. cbv zeta.
  set (w0 := start thread).
  assert (P0 : Forall plain (log w0)) by constructor.
  (* the glob, genhtml, the merge, the total and the client *)
  erewrite bind_returned by (apply call_answers; quiet).
  match goal with |- context [bind (genhtml env ?f ?t) _ ?w] =>
    destruct (genhtml_completes env lookup_only f t w) as (u1 & w1 & e1 & E1 & L1 & F1) end.
  rewrite (bind_returned _ _ _ _ _ E1).
  assert (P1 : Forall plain (log w1)).
  { rewrite L1. apply Forall_app. split; [| exact F1]. apply Forall_app. now repeat constructor. }
  clear E1 L1 F1 e1.
  match goal with |- context [bind (mergeCoverages env ?f ?t) _ ?w] =>
    destruct (mergeCoverages_returns env lookup_only f t w) as (e2 & E2 & F2) end.
  rewrite (bind_returned _ _ _ _ _ E2). clear E2.
  erewrite bind_returned by (apply call_answers; quiet).
  erewrite bind_returned by (apply call_answers; quiet).
  fold (tmpPath env). fold (mergedCoverageFile env). fold (totalCoverage env).
  change (negb (trim (getInput env "github-token") =? "")) with (hasGithubToken env).
  change (existsb (String.eqb (eventName env)) events) with (isPR env).
  set (w2 := after _ [Called (GetOctokit _)]).
  assert (P2 : Forall plain (log w2)).
  { subst w2. simpl. repeat (apply Forall_app; split); auto; repeat constructor. }
  clearbody w2. clear F2 e2 P1 w1 u1.
  (* the comment *)
  match goal with |- context [bind ?blk _ w2] =>
    assert (B : exists a w3 evs, blk w2 = (Returned a, w3) /\ log w3 = (log w2 ++ evs)%list
                /\ Forall plain evs
                /\ (hasGithubToken env && isPR env = true -> Exists publish_call evs)) end.
  { destruct (hasGithubToken env && isPR env) eqn:C.
    - apply andb_prop in C. destruct C as [_ C]. apply payload in C.
      destruct (summarize_completes env lookup_only (mergedCoverageFile env) w2)
        as (summary & wa & ea & Ea & La & Fa).
      rewrite (bind_returned _ _ _ _ _ Ea).
      destruct (detail_completes env lookup_only (mergedCoverageFile env) C wa)
        as (details & wb & eb & Eb & Lb & Fb).
      rewrite (bind_returned _ _ _ _ _ Eb).
      match goal with |- context [bind (calculatePreviousCoverage env ?a ?t ?p) _ _] =>
        destruct (calculatePreviousCoverage_completes env lookup_only a t p wb)
          as (previous & wc & ec & Ec & Lc & Fc) end.
      rewrite (bind_returned _ _ _ _ _ Ec).
      unfold payload_pull_request. destruct (pull_request env) as [pr |] eqn:Epr; [| congruence].
      rewrite (bind_returned _ _ _ wc pr eq_refl).
      match goal with |- context [if ?u then upsertComment env ?b ?m else createComment env ?b'] =>
        assert (Pub : publishes (if u then upsertComment env b m else createComment env b'))
      end.
      { destruct (getInput env "update-comment" =? "true").
        - apply upsertComment_publishes; [exact lookup_only | congruence].
        - apply createComment_publishes; [exact lookup_only | congruence]. }
      destruct (Pub wc) as (u & wd & ed & Ed & Ld & Fd & Xd).
      exists u, wd, (ea ++ eb ++ ec ++ ed)%list. split; [exact Ed |].
      split; [rewrite Ld, Lc, Lb, La; now rewrite <- !app_assoc |].
      split; [repeat (apply Forall_app; split); assumption |].
      intros _. apply Exists_app. right. apply Exists_app. right. apply Exists_app. now right.
    - destruct (hasGithubToken env); simpl negb; cbv iota.
      + destruct (negb (isPR env)).
        * eexists tt, _, [_; _]. repeat split; [simpl; now rewrite <- app_assoc | repeat constructor | discriminate].
        * eexists tt, _, []. repeat split; [simpl; now rewrite app_nil_r | constructor | discriminate].
      + eexists tt, _, [_; _]. repeat split; [simpl; now rewrite <- app_assoc | repeat constructor | discriminate]. }
  destruct B as (u3 & w3 & e3 & E3 & L3 & F3 & X3).
  rewrite (bind_returned _ _ _ _ _ E3). clear E3.
  assert (P3 : Forall plain (log w3)) by (rewrite L3; apply Forall_app; now split).
  assert (X3' : hasGithubToken env && isPR env = true -> Exists publish_call (log w3)).
  { intros C. rewrite L3. apply Exists_app. right. now apply X3. }
  clear L3 F3 X3 e3 P2 w2 u3.
  (* the upload *)
  match goal with |- context [bind ?blk _ w3] =>
    assert (U : exists w4 evs, blk w3 = (Returned tt, w4) /\ log w4 = (log w3 ++ evs)%list
                /\ Forall plain evs
                /\ (hasGithubToken env && truthy (getInput env "coverage-artifact-name") = true ->
                    In (Called (UploadArtifact (getInput env "coverage-artifact-name")
                                  [mergedCoverageFile env]
                                  (path_dirname (mergedCoverageFile env)))) evs)) end.
  { destruct (hasGithubToken env && truthy (getInput env "coverage-artifact-name")).
    - unfold core_info. rewrite (bind_returned _ _ _ _ _ (emit_after _ w3)).
      rewrite call_answers by quiet.
      eexists _, [_; _]. repeat split; [simpl; now rewrite <- app_assoc | repeat constructor |].
      intros _. right. now left.
    - eexists _, [_]. repeat split; [repeat constructor | discriminate]. }
  destruct U as (w4 & e4 & E4 & L4 & F4 & U4).
  rewrite (bind_returned _ _ _ _ _ E4). clear E4.
  (* the output and the gate *)
  unfold core_setOutput. rewrite (bind_returned _ _ _ _ _ (emit_after _ w4)).
  exists (log w4). split; [| split; [| split]].
  - destruct (isMinimumCoverageReached _ _); simpl; [reflexivity |].
    now rewrite <- app_assoc.
  - rewrite L4. apply Forall_app. now split.
  - intros C. rewrite L4. apply Exists_app. left. now apply X3'.
  - intros C. rewrite L4. apply in_or_app. right. now apply U4.
Qed.


Lemma failure_of_plain (pre rest : list Event) :
  Forall plain pre -> failure_of (pre ++ rest) = failure_of rest.
Proof.
  induction 1 as [| e pre He _ IH]; simpl; [reflexivity |].
  destruct e; simpl in He; try contradiction; exact IH.
Qed.

Lemma failure_of_last (trace : list Event) (message : string) :
  failure_of (trace ++ [FailedSet message]) = Some message.
Proof.
  induction trace as [| e trace IH]; simpl; [reflexivity |].
  destruct e; try exact IH. now rewrite IH.
Qed.

Lemma prefix_app (x rest : string) : String.prefix x (x ++ rest) = true.
Proof.
  induction x as [| c x IH]; simpl.
  - now destruct rest.
  - destruct (ascii_dec c c); [exact IH | congruence].
Qed.

Lemma includes_prefix (x rest : string) : includes (x ++ rest) x = true.
Proof.
  assert (U : forall s, includes s x = String.prefix x s
                                       || match s with
                                          | EmptyString => false
                                          | String _ t => includes t x
                                          end) by (intros []; reflexivity).
  now rewrite U, prefix_app.
Qed.

Lemma includes_later (before s x : string) :
  includes s x = true -> includes (before ++ s) x = true.
Proof.
  intros H. induction before as [| c before IH]; simpl; [exact H |].
  rewrite IH. apply orb_true_r.
Qed.

(** The failure message names the coverage and the minimum. *)
Lemma errorMessage_states (total : float) (minimum : string) :
  includes (errorMessage total minimum) (NumberToString total) = true
  /\ includes (errorMessage total minimum) minimum = true.
Proof.
  unfold errorMessage. split.
  - apply includes_later, includes_prefix.
  - apply includes_later, includes_later, includes_later, includes_prefix.
Qed.

End Gate.

(** ** The baseline resolver and the artifact download *)

Section Baseline.
Context {rt : Runtime} (env : Env).

Lemma calculatePreviousCoverage_catches (artifactName token tmp : string)
    (w w' : World) (message : string) :
  downloadTargetBranchCoverage env artifactName token tmp w = (Thrown message, w') ->
  calculatePreviousCoverage env artifactName token tmp w
  = (Returned None, after w' [Logged LWarning ("Error loading previous coverage: " ++ message)]).
Proof.
  intros E. unfold calculatePreviousCoverage.
  unfold bind at 1. unfold try_catch. rewrite (bind_thrown _ _ _ _ _ E).
  unfold bind, core_warning. rewrite emit_after. reflexivity.
Qed.

Lemma calculatePreviousCoverage_absent (artifactName token tmp : string) (w w' : World) :
  downloadTargetBranchCoverage env artifactName token tmp w = (Returned None, w') ->
  calculatePreviousCoverage env artifactName token tmp w = (Returned None, w').
Proof.
  intros E. unfold calculatePreviousCoverage.
  unfold bind at 1. unfold try_catch. rewrite (bind_returned _ _ _ _ _ E).
  reflexivity.
Qed.

Lemma calculatePreviousCoverage_resolves (artifactName token tmp : string) (w w' : World)
    (baseline : BaselineFile) :
  downloadTargetBranchCoverage env artifactName token tmp w = (Returned (Some baseline), w') ->
  calculatePreviousCoverage env artifactName token tmp w
  = (match fault env (LcovTotal (bl_path baseline)) with
     | Some message => Thrown message
     | None => Returned (Some {| coverage := lcov_total env (bl_path baseline);
                                 prev_path := bl_path baseline;
                                 runId := bl_runId baseline;
                                 targetBranchSha := bl_targetBranchSha baseline |})
     end, after w' [Called (LcovTotal (bl_path baseline))]).
Proof.
  intros E. unfold calculatePreviousCoverage.
  unfold bind at 1. unfold try_catch. rewrite (bind_returned _ _ _ _ _ E).
  cbn [ret]. unfold call, bind. rewrite emit_after.
  destruct (fault env (LcovTotal (bl_path baseline))); reflexivity.
Qed.

(** C2. Whenever the baseline lookup raises, the resolver returns [null]
    and logs the error as a warning; when the lookup finds nothing, the
    resolver returns [null] too; and a run in which only calls of the
    baseline lookup raise, and whose coverage reaches the minimum, does
    not fail. *)
Theorem C2_lookup_errors_become_absent (thread : list Comment) :
  (forall artifactName token tmp w w' message,
      downloadTargetBranchCoverage env artifactName token tmp w = (Thrown message, w') ->
      calculatePreviousCoverage env artifactName token tmp w
      = (Returned None,
         after w' [Logged LWarning ("Error loading previous coverage: " ++ message)]))
  /\ (forall artifactName token tmp w w',
         downloadTargetBranchCoverage env artifactName token tmp w = (Returned None, w') ->
         calculatePreviousCoverage env artifactName token tmp w = (Returned None, w'))
  /\ (only_lookup_faults env -> payload_ok env ->
      isMinimumCoverageReached (totalCoverage env) (getInput env "minimum-coverage") = true ->
      failure_of (trace_of env thread) = None).
Proof.
  split; [| split].
  - intros. now apply calculatePreviousCoverage_catches.
  - intros. now apply calculatePreviousCoverage_absent.
  - intros Hf Hp Ge.
    destruct (run_reaches_gate env Hf Hp thread) as (pre & T & F & _).
    rewrite Ge in T. rewrite T. now rewrite failure_of_plain.
Qed.

(** C7. Once the artifact is found, downloaded and the destination
    directory listed, [downloadSingleFileArtifact] raises if and only if
    the directory does not hold exactly one file; with one file it
    returns that file's path joined to the directory, and with any other
    count the error reports the count. *)
Theorem C7_single_file_contract
    (artifactName : string) (findBy : FindBy) (downloadDir : string) (id : Z) (w : World) :
  artifact_id env artifactName findBy = Some id ->
  fault env (GetArtifact artifactName findBy) = None ->
  fault env (DownloadArtifact id findBy downloadDir) = None ->
  fault env (Readdir downloadDir) = None ->
  let files := readdir env downloadDir in
  let result := fst (downloadSingleFileArtifact env artifactName findBy downloadDir w) in
  ((exists message, result = Thrown message) <-> List.length files <> 1%nat)
  /\ (forall file, files = [file] -> result = Returned (Some (path_join downloadDir file)))
  /\ (List.length files <> 1%nat ->
      result = Thrown ("Expected a single file, but found "
                       ++ decimal (Z.of_nat (List.length files))
                       ++ " files in " ++ downloadDir ++ ".")).
Proof.
  intros Ha Fg Fd Fr files result.
  assert (R : result = if negb (List.length files =? 1)%nat
                       then Thrown ("Expected a single file, but found "
                                    ++ decimal (Z.of_nat (List.length files))
                                    ++ " files in " ++ downloadDir ++ ".")
                       else Returned (Some (path_join downloadDir (nth 0 files "")))).
  { subst result. unfold downloadSingleFileArtifact.
    rewrite (bind_returned _ _ _ _ _ (call_answers env _ _ w Fg)). rewrite Ha.
    rewrite (bind_returned _ _ _ _ _ (call_answers env _ _ _ Fd)).
    unfold core_info. rewrite (bind_returned _ _ _ _ _ (emit_after _ _)).
    rewrite (bind_returned _ _ _ _ _ (call_answers env _ _ _ Fr)).
    fold files. now destruct (negb (List.length files =? 1)%nat). }
  rewrite R. destruct (Nat.eqb_spec (List.length files) 1) as [One | Other]; simpl.
  - split; [| split].
    + split; [intros [m H]; discriminate | intros H; contradiction].
    + intros file ->. reflexivity.
    + intros H. contradiction.
  - split; [| split].
    + split; [intros _; exact Other | intros _; eexists; reflexivity].
    + intros file E. rewrite E in Other. now contradiction Other.
    + intros _. reflexivity.
Qed.

End Baseline.

(** ** The gate on a minimum that is no number *)

Section Gate_NaN.
Context {rt : Runtime} (env : Env).

Lemma js_ge_nan (x y : float) : PrimFloat.is_nan y = true -> js_ge x y = false.
Proof. intros H. unfold js_ge, Number_lessThan. now rewrite H, orb_true_r. Qed.

(** C10. When the minimum-coverage input coerces to NaN, the comparison
    of the gate is false for every aggregate coverage, and every run ends
    failed: either something raised before the gate, or the gate raises. *)
Theorem C10_non_numeric_minimum_never_passes (thread : list Comment) :
  PrimFloat.is_nan (StringToNumber (getInput env "minimum-coverage")) = true ->
  (forall total, isMinimumCoverageReached total (getInput env "minimum-coverage") = false)
  /\ exists message, failure_of (trace_of env thread) = Some message.
Proof.
  intros NaN.
  assert (G : forall total,
             isMinimumCoverageReached total (getInput env "minimum-coverage") = false).
  { intros total. unfold isMinimumCoverageReached. now apply js_ge_nan. }
  split; [exact G |].
  unfold trace_of, run, try_catch. cbv zeta.
  match goal with |- context [let (o, w') := ?body ?w in _] =>
    destruct (body w) as [[u | message] w'] eqn:E end.
  - exfalso.
    repeat (apply bind_inversion in E; destruct E as (? & ? & _ & E); cbv beta in E).
    rewrite G in E. discriminate.
  - exists message. simpl. apply failure_of_last.
Qed.

End Gate_NaN.

(** ** A run without a token *)

Section NoToken.
Context {rt : Runtime} (env : Env).
Hypothesis no_token : hasGithubToken env = false.

Lemma token_is_empty : trim (getInput env "github-token") = "".
Proof.
  unfold hasGithubToken in no_token. apply negb_false_iff in no_token.
  now apply String.eqb_eq.
Qed.



End NoToken.

(** ** The message line of the comment *)

Lemma append_assoc (a b c : string) : (a ++ b) ++ c = a ++ b ++ c.
Proof. induction a as [| x a IH]; simpl; [reflexivity | now rewrite IH]. Qed.

Lemma length_append (a b : string) :
  String.length (a ++ b) = (String.length a + String.length b)%nat.
Proof. induction a as [| x a IH]; simpl; [reflexivity | now rewrite IH]. Qed.

Lemma length_zeros (k : nat) : String.length (zeros k) = k.
Proof. induction k as [| k IH]; simpl; [reflexivity | now rewrite IH]. Qed.

Lemma length_substring (s : string) (n len : nat) :
  (n + len <= String.length s)%nat -> String.length (substring n len s) = len.
Proof.
  revert n len. induction s as [| c s IH]; intros n len H; simpl in H.
  - assert (n = 0 /\ len = 0)%nat as [-> ->] by lia. reflexivity.
  - destruct n as [| n]; simpl.
    + destruct len as [| len]; simpl; [reflexivity |]. rewrite IH; [reflexivity | lia].
    + apply IH. lia.
Qed.

Lemma all_digits_append (a b : string) :
  all_digits a = true -> all_digits b = true -> all_digits (a ++ b) = true.
Proof.
  intros Ha Hb. induction a as [| x a IH]; simpl in *; [exact Hb |].
  apply andb_prop in Ha. destruct Ha as [Hx Ha]. now rewrite Hx, IH.
Qed.

Lemma all_digits_zeros (k : nat) : all_digits (zeros k) = true.
Proof. induction k as [| k IH]; simpl; [reflexivity | exact IH]. Qed.

Lemma all_digits_substring (s : string) (n len : nat) :
  all_digits s = true -> all_digits (substring n len s) = true.
Proof.
  revert n len. induction s as [| c s IH]; intros n len H; simpl in *.
  - now destruct n, len.
  - apply andb_prop in H. destruct H as [Hc Hs]. destruct n as [| n].
    + destruct len as [| len]; simpl; [reflexivity |]. now rewrite Hc, IH.
    + now apply IH.
Qed.

Lemma all_digits_uint (d : Decimal.uint) :
  all_digits (DecimalString.NilEmpty.string_of_uint d) = true.
Proof. induction d; simpl; auto. Qed.

Lemma all_digits_decimal (n : Z) : (0 <= n)%Z -> all_digits (decimal n) = true.
Proof.
  intros H. unfold decimal. destruct n as [| p | p]; [reflexivity | | lia].
  simpl. unfold DecimalString.NilZero.string_of_uint.
  destruct (Pos.to_uint p); try apply all_digits_uint. reflexivity.
Qed.

Lemma fixed2_digits_shape (n : Z) :
  (0 <= n)%Z ->
  exists whole frac,
    fixed2_digits n = whole ++ "." ++ frac
    /\ String.length frac = 2%nat /\ (1 <= String.length whole)%nat
    /\ all_digits whole = true /\ all_digits frac = true.
Proof.
  intros H. unfold fixed2_digits.
  set (m := if (String.length (decimal n) <=? 2)%nat
            then zeros (3 - String.length (decimal n)) ++ decimal n else decimal n).
  assert (L : (3 <= String.length m)%nat).
  { subst m. destruct (Nat.leb_spec (String.length (decimal n)) 2).
    - rewrite length_append, length_zeros. lia.
    - lia. }
  assert (D : all_digits m = true).
  { subst m. destruct (String.length (decimal n) <=? 2)%nat.
    - apply all_digits_append; [apply all_digits_zeros | now apply all_digits_decimal].
    - now apply all_digits_decimal. }
  exists (substring 0 (String.length m - 2) m), (substring (String.length m - 2) 2 m).
  split; [reflexivity |].
  rewrite !length_substring by lia.
  repeat split; try lia; now apply all_digits_substring.
Qed.

Lemma nearest_hundredths_nonneg (m : positive) (e : Z) : (0 <= nearest_hundredths m e)%Z.
Proof.
  unfold nearest_hundredths. destruct (0 <=? e)%Z eqn:E.
  - apply Z.leb_le in E. apply Z.mul_nonneg_nonneg; [| lia].
    apply Z.mul_nonneg_nonneg; [lia |]. now apply Z.pow_nonneg.
  - apply Z.div_pos.
    + assert (0 <= 2 ^ (- e))%Z by (apply Z.pow_nonneg; lia). lia.
    + apply Z.pow_pos_nonneg; [lia |]. apply Z.leb_gt in E. lia.
Qed.

Section Message.
Context {rt : Runtime} (env : Env).

(** A finite number below 10^21 prints with a whole part of digits, a
    point and exactly two digits. *)
Lemma toFixed2_two_decimals (x : float) (s : bool) (m : positive) (e : Z) :
  Prim2SF x = S754_finite s m e -> (Z.pos m * 2 ^ e < 10 ^ 21)%Z ->
  exists whole frac,
    toFixed2 x = (if s then "-" else "") ++ whole ++ "." ++ frac
    /\ String.length frac = 2%nat /\ (1 <= String.length whole)%nat
    /\ all_digits whole = true /\ all_digits frac = true.
Proof.
  intros E B. unfold toFixed2. rewrite E.
  destruct (Z.leb_spec (10 ^ 21) (Z.pos m * 2 ^ e)) as [Big | _]; [lia |].
  destruct (fixed2_digits_shape _ (nearest_hundredths_nonneg m e))
    as (whole & frac & F & R).
  exists whole, frac. now rewrite F.
Qed.

(** [diffMessage] is the diff line exactly when it is given a baseline,
    and the "Total coverage" line otherwise. *)
Lemma message_line (total : float) (previous : option PreviousCoverage) (sha : string) :
  let line := diffMessage env total previous sha in
  (startsWith line "This pull request changes total coverage " = true <-> previous <> None)
  /\ (startsWith line "Total coverage: " = true <-> previous = None)
  /\ (forall p, previous = Some p ->
        let diff := PrimFloat.sub total (coverage p) in
        line = "This pull request changes total coverage "
               ++ (if js_gt diff PrimFloat.zero then "+" else "") ++ toFixed2 diff
               ++ "% (" ++ toFixed2 (coverage p) ++ "% -> " ++ toFixed2 total
               ++ "%) for this [diff](https://github.com/" ++ owner env ++ "/" ++ repo env
               ++ "/compare/" ++ targetBranchSha p ++ "..." ++ sha ++ ")")
  /\ (previous = None -> line = "Total coverage: " ++ toFixed2 total ++ "%").
Proof.
  intros line. subst line. split; [| split; [| split]].
  - destruct previous as [p |]; unfold diffMessage, startsWith; cbv zeta.
    + split; [congruence | intros _; apply prefix_app].
    + split; [intros H; discriminate H | congruence].
  - destruct previous as [p |]; unfold diffMessage, startsWith; cbv zeta.
    + split; [intros H; discriminate H | congruence].
    + split; [reflexivity | intros _; apply prefix_app].
  - intros p ->. unfold diffMessage. cbv zeta. now rewrite !append_assoc.
  - intros ->. reflexivity.
Qed.

End Message.

(** ** The comment reconciler on a thread that fits one page *)

Section Reconciler.
Context {rt : Runtime} (env : Env).
Hypothesis lookup_only : only_lookup_faults env.
Variable pr : PullRequest.
Hypothesis payload : pull_request env = Some pr.

Ltac quiet := apply lookup_only; reflexivity.

(** With no marked comment on the first page, [upsertComment] appends a
    new comment. *)
Lemma upsertComment_creates (body marker : string) (w : World) :
  find (marked marker) (firstn default_per_page (comments w)) = None ->
  exists evs,
    snd (upsertComment env body marker w)
    = {| comments := (comments w
                      ++ [{| comment_id := next_comment_id w; comment_body := body |}])%list;
         next_comment_id := next_comment_id w + 1;
         log := (log w ++ evs)%list |}.
Proof.
  intros None_marked. unfold upsertComment, createComment, payload_pull_request.
  rewrite payload. rewrite bind_ret.
  erewrite bind_returned by (apply call_answers; quiet).
  rewrite (bind_returned _ _ _ _ _ eq_refl : bind host_listComments _ _ = _).
  change (comments (after w _)) with (comments w).
  unfold marked in None_marked. rewrite None_marked.
  unfold core_debug. rewrite (bind_returned _ _ _ _ _ (emit_after _ _)).
  rewrite (bind_returned _ _ _ _ _ (emit_after _ _)).
  rewrite bind_ret.
  erewrite bind_returned by (apply call_answers; quiet).
  eexists. unfold host_createComment. simpl. rewrite <- !app_assoc. reflexivity.
Qed.

(** With a marked comment on the first page, [upsertComment] rewrites
    the first one and adds none. *)
Lemma upsertComment_updates (body marker : string) (w : World) (existing : Comment) :
  find (marked marker) (firstn default_per_page (comments w)) = Some existing ->
  exists evs,
    snd (upsertComment env body marker w)
    = {| comments := map (fun c => if (comment_id c =? comment_id existing)%Z
                                   then {| comment_id := comment_id existing;
                                           comment_body := body |}
                                   else c) (comments w);
         next_comment_id := next_comment_id w;
         log := (log w ++ evs)%list |}.
Proof.
  intros Found. unfold upsertComment, payload_pull_request.
  rewrite payload. rewrite bind_ret.
  erewrite bind_returned by (apply call_answers; quiet).
  rewrite (bind_returned _ _ _ _ _ eq_refl : bind host_listComments _ _ = _).
  change (comments (after w _)) with (comments w).
  unfold marked in Found. rewrite Found.
  unfold core_debug. rewrite (bind_returned _ _ _ _ _ (emit_after _ _)).
  erewrite bind_returned by (apply call_answers; quiet).
  eexists. unfold host_updateComment. simpl. rewrite <- !app_assoc. reflexivity.
Qed.

Lemma ids_below_fresh (thread : list Comment) (c : Comment) :
  In c thread -> (comment_id c < 1 + fold_right Z.max 0 (map comment_id thread))%Z.
Proof.
  induction thread as [| d thread IH]; cbn [In map fold_right]; [contradiction |].
  intros [-> | H]; [lia |]. specialize (IH H). lia.
Qed.

Lemma find_none_iff (marker : string) (l : list Comment) :
  (forall c, In c l -> marked marker c = false) -> find (marked marker) l = None.
Proof.
  induction l as [| c l IH]; simpl; intros H; [reflexivity |].
  rewrite (H c) by now left. apply IH. intros d Hd. apply H. now right.
Qed.

Lemma find_first_after (marker : string) (l : list Comment) (c : Comment) :
  (forall d, In d l -> marked marker d = false) -> marked marker c = true ->
  find (marked marker) (l ++ [c])%list = Some c.
Proof.
  induction l as [| d l IH]; simpl; intros H M.
  - now rewrite M.
  - rewrite (H d) by now left. apply IH; [| exact M]. intros x Hx. apply H. now right.
Qed.

Lemma map_unchanged (id : Z) (body : string) (l : list Comment) :
  (forall c, In c l -> comment_id c <> id) ->
  map (fun c => if (comment_id c =? id)%Z
                then {| comment_id := id; comment_body := body |} else c) l = l.
Proof.
  induction l as [| c l IH]; simpl; intros H; [reflexivity |].
  destruct (Z.eqb_spec (comment_id c) id) as [E | _].
  - exfalso. now apply (H c); [left |].
  - rewrite IH; [reflexivity |]. intros d Hd. apply H. now right.
Qed.

(** On a thread with room on the first page and no marked comment, two
    publications in update mode leave one report: the thread followed by
    a single new comment that carries the second body. *)
Lemma upsertComment_twice_on_first_page (thread : list Comment)
    (first second marker : string) :
  (List.length thread < default_per_page)%nat ->
  (forall c, In c thread -> marked marker c = false) ->
  includes first marker = true ->
  comments (snd ((upsertComment env first marker ;; upsertComment env second marker)%action
                   (start thread)))
  = (thread ++ [{| comment_id := next_comment_id (start thread);
                   comment_body := second |}])%list.
Proof.
  intros Room Unmarked First.
  destruct (upsertComment_creates first marker (start thread)) as (e1 & E1).
  { simpl comments. rewrite firstn_all2 by lia. now apply find_none_iff. }
  unfold bind. destruct (upsertComment env first marker (start thread)) as [[u | m] w1] eqn:R.
  - simpl in E1. subst w1.
    match goal with |- context [upsertComment env second marker ?w] =>
      destruct (upsertComment_updates second marker w
                  {| comment_id := next_comment_id (start thread); comment_body := first |})
        as (e2 & E2) end.
    { simpl comments. rewrite firstn_all2 by (rewrite length_app; simpl; lia).
      apply find_first_after; [exact Unmarked | exact First]. }
    rewrite E2. cbn [comments snd start next_comment_id]. rewrite map_app.
    cbn [map comment_id]. rewrite Z.eqb_refl.
    rewrite map_unchanged; [reflexivity |].
    intros c Hc. pose proof (ids_below_fresh thread c Hc). lia.
  - exfalso. revert R. unfold upsertComment, createComment, payload_pull_request.
    rewrite payload, bind_ret.
    erewrite bind_returned by (apply call_answers; quiet).
    rewrite (bind_returned _ _ _ _ _ eq_refl : bind host_listComments _ _ = _).
    destruct (find _ _); unfold core_debug;
      repeat first [ rewrite (bind_returned _ _ _ _ _ (emit_after _ _))
                   | rewrite bind_ret
                   | erewrite bind_returned by (apply call_answers; quiet) ];
      discriminate.
Qed.

End Reconciler.

(** ** The artifact locator *)

Section Locator.
Context {rt : Runtime} (env : Env).

Lemma newest_on_branch (runs : list WorkflowRun) (branch : string) :
  listWorkflowRunsForRepo runs branch None 1
  = match find (fun r => run_head_branch r =? branch) runs with
    | Some r => [r]
    | None => []
    end.
Proof.
  unfold listWorkflowRunsForRepo. induction runs as [| r runs IH]; simpl; [reflexivity |].
  rewrite andb_true_r. destruct (run_head_branch r =? branch); simpl.
  - now destruct (filter _ runs).
  - exact IH.
Qed.

(** The locator resolves artifact, run id and head SHA from the first
    entry of the listing that is on the target branch; the conclusion of
    that run plays no part. *)
Lemma downloadTargetBranchCoverage_takes_newest_on_branch
    (artifactName token tmp file : string) (pr : PullRequest) (run0 : WorkflowRun)
    (id : Z) (w : World) :
  let findBy := {| fb_token := token; fb_workflowRunId := run_id run0;
                   fb_repositoryOwner := owner env; fb_repositoryName := repo env |} in
  let dir := tmp ++ "/" ++ decimal (run_id run0) ++ "-" ++ artifactName ++ "-lcov.info" in
  (forall c, fault env c = None) ->
  pull_request env = Some pr ->
  find (fun r => run_head_branch r =? pr_base_ref pr) (workflow_runs env) = Some run0 ->
  artifact_id env artifactName findBy = Some id ->
  readdir env dir = [file] ->
  fst (downloadTargetBranchCoverage env artifactName token tmp w)
  = Returned (Some {| bl_path := Some (path_join dir file);
                      bl_runId := run_id run0;
                      bl_targetBranchSha := run_head_sha run0 |}).
Proof.
  intros findBy dir Quiet Payload Newest Found One.
  unfold downloadTargetBranchCoverage, downloadSingleFileArtifact. rewrite Payload.
  rewrite newest_on_branch, Newest. subst findBy dir. cbv zeta.
  autounfold with actions.
  repeat first
    [ rewrite bind_assoc
    | rewrite bind_ret
    | rewrite (bind_returned _ _ _ _ _ (emit_after _ _))
    | erewrite bind_returned by (apply call_answers; apply Quiet)
    | rewrite Found
    | rewrite One; cbn [List.length Nat.eqb negb nth]
    | progress cbv beta iota ].
  reflexivity.
Qed.

End Locator.

(** * Concrete runs *)

Section Scenarios.

Lemma world_payload_ok (inputs : list (string * string)) (runs : list WorkflowRun)
    (fault : Call -> option string) :
  payload_ok (world inputs runs fault).
Proof. intros _. discriminate. Qed.

Lemma no_fault_only_lookup (inputs : list (string * string)) (runs : list WorkflowRun) :
  only_lookup_faults (world inputs runs no_fault).
Proof. intros c _. reflexivity. Qed.

Lemma listing_unreachable_only_lookup (inputs : list (string * string))
    (runs : list WorkflowRun) :
  only_lookup_faults (world inputs runs listing_unreachable).
Proof. intros c H. destruct c; try reflexivity. discriminate H. Qed.

(** A run whose listing of workflow runs cannot be reached passes. *)
Lemma C2_unreachable_listing_witness :
  failure_of (trace_of unreachable_run []) = None.
Proof.
  apply (proj2 (proj2 (C2_lookup_errors_become_absent (rt := node) unreachable_run []))
           (listing_unreachable_only_lookup _ _) (world_payload_ok _ _ _)).
  vm_compute. reflexivity.
Defined.

(** C3 (the code departs from the claim). [upsertComment] reads one page
    of the comment listing.  On a thread that starts with thirty other
    comments, the first publication in update mode creates the report as
    the thirty-first comment, the second one does not see it and creates
    another: two marked comments, the older one with the first body. *)
Theorem C3_report_past_first_page_is_duplicated :
  List.length discussion = default_per_page
  /\ filter is_report discussion = []
  /\ map comment_body (filter is_report (thread_after_two_reports gated_run discussion))
     = [first_report; second_report].
Proof. vm_compute. repeat split. Qed.

(** C5 (the code departs from the claim). The locator asks for the
    newest run on the target branch without naming a status: with a
    failed run 12 above a successful run 11 it takes artifact, run id and
    head SHA from run 12, while the newest successful run is run 11. *)
Theorem C5_latest_run_taken_whatever_its_conclusion :
  fst (downloadTargetBranchCoverage gated_run "coverage" "secret" "/tmp/lcov" (start []))
  = Returned (Some {| bl_path := Some "/tmp/lcov/12-coverage-lcov.info/lcov.info";
                      bl_runId := 12;
                      bl_targetBranchSha := "bbbbbbb" |})
  /\ map run_conclusion (listWorkflowRunsForRepo main_runs "main" None 1) = ["failure"]
  /\ map run_id (listWorkflowRunsForRepo main_runs "main" (Some "success") 1) = [11%Z].
Proof. vm_compute. repeat split. Qed.

(** One file in the directory: its path is returned. *)
Lemma C7_single_file_witness :
  fst (downloadSingleFileArtifact gated_run "coverage" baseline_scope baseline_directory
         (start []))
  = Returned (Some "/tmp/lcov/12-coverage-lcov.info/lcov.info").
Proof.
  apply (proj1 (proj2 (C7_single_file_contract (rt := node) gated_run "coverage" baseline_scope
                         baseline_directory 500 (start []) eq_refl eq_refl eq_refl eq_refl))
           "lcov.info").
  reflexivity.
Defined.

(** A minimum of "abc" fails the run. *)
Lemma C10_non_numeric_minimum_witness :
  exists message, failure_of (trace_of non_numeric_run []) = Some message.
Proof.
  apply (C10_non_numeric_minimum_never_passes (rt := node) non_numeric_run []).
  vm_compute. reflexivity.
Defined.

End Scenarios.

(** * Further properties of the program *)

(** ** Lines of tool output *)

Section Lines.

Lemma split_lf_nonempty (s : string) : split_lf s <> [].
Proof.
  induction s as [| c s IH]; simpl; [discriminate |].
  destruct (Ascii.eqb c LF_char); [discriminate |].
  destruct (split_lf s); [contradiction | discriminate].
Qed.

(** Joining the pieces of a split with line feeds gives the text back. *)
Lemma join_split_lf (s : string) : join LF (split_lf s) = s.
Proof.
  induction s as [| c s IH]; [reflexivity |].
  simpl. destruct (Ascii.eqb_spec c LF_char) as [-> | Hc].
  - unfold join in *. simpl. pose proof (split_lf_nonempty s) as N.
    destruct (split_lf s) as [| h t]; [contradiction |]. now rewrite IH.
  - unfold join in *. pose proof (split_lf_nonempty s) as N.
    destruct (split_lf s) as [| h t]; [contradiction |].
    simpl in *. destruct t; simpl in *; now rewrite <- IH.
Qed.

Lemma split_lf_first_line (first rest : string) :
  has_char LF_char first = false ->
  split_lf (first ++ LF ++ rest) = first :: split_lf rest.
Proof.
  induction first as [| c first IH]; intros H; simpl in *.
  - reflexivity.
  - apply orb_false_elim in H. destruct H as [Hc Hf]. rewrite Hc, (IH Hf). reflexivity.
Qed.

Lemma drop_final_cr_without_cr (s : string) :
  has_char CR_char s = false -> drop_final_cr s = s.
Proof.
  induction s as [| c s IH]; intros H; [reflexivity |].
  simpl in H. apply orb_false_elim in H. destruct H as [Hc Hs].
  simpl. destruct s as [| d s]; [now rewrite Hc |]. now rewrite (IH Hs).
Qed.

Lemma split_lf_without_cr (s : string) :
  has_char CR_char s = false -> Forall (fun piece => has_char CR_char piece = false) (split_lf s).
Proof.
  induction s as [| c s IH]; intros H; simpl in *.
  - repeat constructor.
  - apply orb_false_elim in H. destruct H as [Hc Hs]. specialize (IH Hs).
    destruct (Ascii.eqb c LF_char).
    + constructor; [reflexivity | exact IH].
    + destruct (split_lf s) as [| h t]; [repeat constructor; simpl; now rewrite Hc |].
      inversion IH; subst. constructor; [simpl; now rewrite Hc | assumption].
Qed.

(** Without carriage returns, splitting on [/\r?\n/] is splitting on
    line feeds. *)
Lemma split_lines_without_cr (s : string) :
  has_char CR_char s = false -> split_lines s = split_lf s.
Proof.
  intros H. unfold split_lines. pose proof (split_lf_nonempty s) as N.
  pose proof (split_lf_without_cr s H) as F.
  rewrite (app_removelast_last EmptyString N) at 3.
  f_equal. rewrite (app_removelast_last EmptyString N) in F.
  apply Forall_app in F. destruct F as [F _].
  induction (removelast (split_lf s)) as [| p ps IH]; [reflexivity |].
  inversion F; subst. simpl. rewrite drop_final_cr_without_cr by assumption.
  now rewrite IH.
Qed.

(** The lines after the first one of a text are the lines of what
    follows its first line feed. *)
Lemma split_lines_after_first (first rest : string) :
  has_char LF_char first = false ->
  tl (split_lines (first ++ LF ++ rest)) = split_lines rest.
Proof.
  intros H. unfold split_lines. rewrite (split_lf_first_line _ _ H).
  pose proof (split_lf_nonempty rest) as N.
  destruct (split_lf rest) as [| p ps] eqn:E; [contradiction |]. reflexivity.
Qed.

End Lines.

(** ** The tools: merge, summary and listing *)

Section Tools.
Context {rt : Runtime} (env : Env).

Lemma added_tracefiles_flags (files tail : list string) :
  hd "" tail <> "--add-tracefile" ->
  added_tracefiles (flat_map (fun file => ["--add-tracefile"; file]) files ++ tail) = files.
Proof.
  intros H. induction files as [| f files IH]; simpl.
  - destruct tail as [| a [| b tail]]; try reflexivity.
    cbn [hd] in H. cbn [added_tracefiles].
    destruct (String.eqb_spec a "--add-tracefile"); [contradiction | reflexivity].
  - now rewrite IH.
Qed.

(** X1. [mergeCoverages] runs the aggregation tool once, on a command
    line that adds exactly the given trace files, in their order, then
    names [tmpPath/lcov.info] as the output file and switches branch
    coverage on.  It returns that output path when the tool succeeds and
    raises the tool's error otherwise; it does so for an empty list of
    files too. *)
Theorem X1_merge_command_line (coverageFiles : list string) (tmp : string) (w : World) :
  let merged := tmp ++ "/lcov.info" in
  exists args,
    mergeCoverages env coverageFiles tmp w
    = (match fault env (Exec "lcov" args None) with
       | Some message => Thrown message
       | None => Returned merged
       end, after w [Called (Exec "lcov" args None)])
    /\ added_tracefiles args = coverageFiles
    /\ skipn (2 * List.length coverageFiles) args
       = ["--output-file"; merged; "--rc"; "lcov_branch_coverage=1"].
Proof.
  intros merged.
  exists ((flat_map (fun coverageFile => ["--add-tracefile"; coverageFile]) coverageFiles
           ++ ["--output-file"; merged]) ++ ["--rc"; "lcov_branch_coverage=1"])%list.
  split; [| split].
  - unfold mergeCoverages, call, bind. rewrite emit_after. fold merged.
    destruct (fault env _); reflexivity.
  - rewrite <- app_assoc. apply added_tracefiles_flags. discriminate.
  - rewrite <- app_assoc.
    assert (L : List.length (flat_map (fun f : string => ["--add-tracefile"; f]) coverageFiles)
                = (2 * List.length coverageFiles)%nat).
    { induction coverageFiles as [| f fs IH]; simpl in *; [reflexivity | lia]. }
    rewrite <- L, skipn_app, skipn_all, Nat.sub_diag. reflexivity.
Qed.

(** X2. When the summary output, once trimmed, is a first line followed
    by a line feed and more text, [summarize] returns the lines of that
    text joined by line feeds: the first line is dropped.  If the text
    holds no carriage return, it is returned as it is. *)
Theorem X2_summarize_drops_first_line (coverageFile first rest : string) (w : World) :
  let args := ["--summary"; coverageFile; "--rc"; "lcov_branch_coverage=1"] in
  fault env (Exec "lcov" args None) = None ->
  trim (exec_output env "lcov" args) = first ++ LF ++ rest ->
  has_char LF_char first = false ->
  fst (summarize env coverageFile w) = Returned (join LF (split_lines rest))
  /\ (has_char CR_char rest = false -> fst (summarize env coverageFile w) = Returned rest).
Proof.
  intros args Quiet Out First.
  assert (R : fst (summarize env coverageFile w) = Returned (join LF (split_lines rest))).
  { unfold summarize. fold args. rewrite (bind_returned _ _ _ _ _ (call_answers env _ _ w Quiet)).
    cbv zeta. rewrite Out, (split_lines_after_first _ _ First). reflexivity. }
  split; [exact R |].
  intros NoCr. rewrite R, (split_lines_without_cr _ NoCr), join_split_lf. reflexivity.
Qed.

Lemma filterLines_any (lines changedFiles : list string) (w : World) :
  exists w', filterLines lines 0 changedFiles w
             = (Returned (firstn 3 lines
                          ++ filter (touches changedFiles) (skipn 3 lines))%list, w')
             /\ comments w' = comments w.
Proof.
  destruct lines as [| l1 [| l2 [| l3 rows]]].
  - now exists w.
  - eexists. split; reflexivity.
  - eexists. split; reflexivity.
  - apply filterLines_listing.
Qed.

(** X3. On any list of lines the changed-file filter keeps the first
    three and, after them, the lines that start with a changed file; the
    [" n/a"] marker is returned exactly when three lines are kept.  So a
    listing of fewer than three lines never gives the marker: its lines
    come back as they are, each on an indented line of its own. *)
Theorem X3_filter_on_any_listing (lines changedFiles : list string) (w : World) :
  let kept := (firstn 3 lines ++ filter (touches changedFiles) (skipn 3 lines))%list in
  fst (changedFilesFilter lines changedFiles w) = Returned (rendered kept)
  /\ ((List.length lines < 3)%nat ->
      fst (changedFilesFilter lines changedFiles w)
      = Returned (LF ++ "  " ++ join (LF ++ "  ") lines)).
Proof.
  intros kept.
  assert (R : fst (changedFilesFilter lines changedFiles w) = Returned (rendered kept)).
  { destruct (filterLines_any lines changedFiles w) as (w' & E & _).
    unfold changedFilesFilter. rewrite (bind_returned _ _ _ _ _ E). fold kept.
    unfold rendered. now destruct (List.length kept =? 3)%nat. }
  split; [exact R |].
  intros Short. rewrite R. subst kept.
  rewrite firstn_all2 by lia. rewrite skipn_all2 by lia. simpl. rewrite app_nil_r.
  unfold rendered. destruct (Nat.eqb_spec (List.length lines) 3); [lia | reflexivity].
Qed.

(** X4. On a listing made of a banner, three header lines, data rows, a
    separator and a total line, [detail] reports the header and the rows
    that start with a changed file, or [" n/a"] when there is no such
    row: the banner, the separator and the total line are never
    reported, whatever they start with. *)
Theorem X4_detail_on_a_listing (coverageFile banner h1 h2 h3 separator total : string)
    (rows : list string) (pr : PullRequest) (w : World) :
  let args := ["--list"; coverageFile; "--list-full-path"; "--rc"; "lcov_branch_coverage=1"] in
  fault env (Exec "lcov" args None) = None ->
  fault env (ListFiles (pr_number pr)) = None ->
  pull_request env = Some pr ->
  split_lines (trim (exec_output env "lcov" args))
  = (banner :: h1 :: h2 :: h3 :: rows ++ [separator; total])%list ->
  fst (detail env coverageFile w)
  = Returned (match filter (touches (changed_files env)) rows with
              | [] => " n/a"
              | kept => LF ++ "  " ++ join (LF ++ "  ") (h1 :: h2 :: h3 :: kept)
              end).
Proof.
  intros args QuietExec QuietFiles Payload Listing.
  unfold detail, payload_pull_request. fold args.
  rewrite (bind_returned _ _ _ _ _ (call_answers env _ _ w QuietExec)). cbv zeta.
  rewrite Listing, Payload, bind_ret.
  rewrite (bind_returned _ _ _ _ _ (call_answers env _ _ _ QuietFiles)).
  assert (L : removelast (removelast (tl (banner :: h1 :: h2 :: h3 :: rows ++ [separator; total])))
              = h1 :: h2 :: h3 :: rows).
  { cbn [tl]. change (h1 :: h2 :: h3 :: rows ++ [separator; total])
      with (((h1 :: h2 :: h3 :: rows) ++ [separator]) ++ [total])%list
      || replace (h1 :: h2 :: h3 :: rows ++ [separator; total])
           with (((h1 :: h2 :: h3 :: rows) ++ [separator]) ++ [total])%list
           by (rewrite <- app_assoc; reflexivity).
    now rewrite !removelast_last. }
  rewrite L.
  unfold changedFilesFilter.
  match goal with |- context [bind (filterLines _ 0 _) _ ?w0] =>
    destruct (filterLines_listing h1 h2 h3 rows (changed_files env) w0) as (w' & E & _) end.
  rewrite (bind_returned _ _ _ _ _ E).
  now destruct (filter (touches (changed_files env)) rows).
Qed.

End Tools.

(** ** More on the comment reconciler *)

Section Reconciler_more.
Context {rt : Runtime} (env : Env).
Hypothesis lookup_only : only_lookup_faults env.
Variable pr : PullRequest.
Hypothesis payload : pull_request env = Some pr.

Lemma filter_unmarked (marker : string) (thread : list Comment) :
  (forall c, In c thread -> marked marker c = false) -> filter (marked marker) thread = [].
Proof.
  induction thread as [| c thread IH]; intros H; simpl; [reflexivity |].
  rewrite (H c) by now left. apply IH. intros d Hd. apply H. now right.
Qed.

(** X5. On a thread with room on the first page of its listing and no
    marked comment, two publications in update mode with bodies that
    hold the marker leave the thread followed by one new comment, which
    is the only marked one and carries the second body. *)
Theorem X5_update_mode_converges (thread : list Comment) (first second marker : string) :
  (List.length thread < default_per_page)%nat ->
  (forall c, In c thread -> marked marker c = false) ->
  includes first marker = true ->
  includes second marker = true ->
  let report := {| comment_id := next_comment_id (start thread); comment_body := second |} in
  let thread' := comments (snd ((upsertComment env first marker ;;
                                 upsertComment env second marker) (start thread))) in
  thread' = (thread ++ [report])%list /\ filter (marked marker) thread' = [report].
Proof.
  intros Room Unmarked First Second report thread'.
  assert (E : thread' = (thread ++ [report])%list)
    by (apply (upsertComment_twice_on_first_page env lookup_only pr payload); assumption).
  split; [exact E |].
  rewrite E, filter_app, (filter_unmarked _ _ Unmarked). simpl.
  unfold marked at 1. cbn [comment_body report]. now rewrite Second.
Qed.

(** X6. When the first page of the listing holds a marked comment,
    [upsertComment] rewrites the first such comment and nothing else:
    the thread keeps its length, its ids and their order, the comment
    with that id now carries the new body, and every comment with
    another id is still there. *)
Theorem X6_update_rewrites_one_comment (body marker : string) (w : World) (existing : Comment) :
  find (marked marker) (firstn default_per_page (comments w)) = Some existing ->
  let thread' := comments (snd (upsertComment env body marker w)) in
  map comment_id thread' = map comment_id (comments w)
  /\ In {| comment_id := comment_id existing; comment_body := body |} thread'
  /\ (forall c, In c (comments w) -> comment_id c <> comment_id existing -> In c thread').
Proof.
  intros Found thread'.
  destruct (upsertComment_updates env lookup_only pr payload body marker w existing Found)
    as (evs & E).
  subst thread'. rewrite E. cbn [comments].
  set (f := fun c : Comment =>
              if (comment_id c =? comment_id existing)%Z
              then {| comment_id := comment_id existing; comment_body := body |} else c).
  split; [| split].
  - rewrite map_map. apply map_ext. intros c. unfold f.
    destruct (Z.eqb_spec (comment_id c) (comment_id existing)) as [-> | _]; reflexivity.
  - apply find_some in Found. destruct Found as [In30 _].
    assert (Inw : In existing (comments w)).
    { rewrite <- (firstn_skipn default_per_page (comments w)). apply in_or_app. now left. }
    apply in_map_iff. exists existing. split; [| exact Inw].
    unfold f. now rewrite Z.eqb_refl.
  - intros c Hc Other. apply in_map_iff. exists c. split; [| exact Hc].
    unfold f. destruct (Z.eqb_spec (comment_id c) (comment_id existing)); [contradiction |].
    reflexivity.
Qed.

End Reconciler_more.

(** ** More on the baseline: resolver and locator *)

Section Baseline_more.
Context {rt : Runtime} (env : Env).

(** X7. When the lookup returns a baseline file, the resolver computes
    its aggregate coverage after the [try]: the result carries that
    coverage with the run id and the head SHA of the lookup, and an
    error of the coverage computation is not caught but raised to the
    caller. *)
Theorem X7_resolver_after_the_lookup (artifactName token tmp : string) (w w' : World)
    (baseline : BaselineFile) :
  downloadTargetBranchCoverage env artifactName token tmp w = (Returned (Some baseline), w') ->
  calculatePreviousCoverage env artifactName token tmp w
  = (match fault env (LcovTotal (bl_path baseline)) with
     | Some message => Thrown message
     | None => Returned (Some {| coverage := lcov_total env (bl_path baseline);
                                 prev_path := bl_path baseline;
                                 runId := bl_runId baseline;
                                 targetBranchSha := bl_targetBranchSha baseline |})
     end, after w' [Called (LcovTotal (bl_path baseline))]).
Proof.
  intros E. unfold calculatePreviousCoverage.
  unfold bind at 1. unfold try_catch. rewrite (bind_returned _ _ _ _ _ E).
  cbn [ret]. unfold call, bind. rewrite emit_after.
  destruct (fault env (LcovTotal (bl_path baseline))); reflexivity.
Qed.

(** X8. The locator gives up quietly in two cases, each with a warning
    and without any request after the one that told it so: outside a
    pull request it asks nothing at all; when no run of the listing is
    on the target branch it asks only for the listing.  And when the
    artifact request for the newest run on the branch raises, as the
    artifact client does when that run has no artifact of the given
    name, the locator raises that error and downloads nothing. *)
Theorem X8_locator_absent (artifactName token tmp : string) (w : World) :
  (pull_request env = None ->
   downloadTargetBranchCoverage env artifactName token tmp w
   = (Returned None,
      after w [Logged LWarning
                 "Not a pull request event. Skipping target branch coverage download."]))
  /\ (forall pr,
        pull_request env = Some pr ->
        fault env (ListWorkflowRuns (pr_base_ref pr) 1) = None ->
        find (fun r => run_head_branch r =? pr_base_ref pr) (workflow_runs env) = None ->
        downloadTargetBranchCoverage env artifactName token tmp w
        = (Returned None,
           after w [Logged LInfo ("Searching for a successful workflow run on target branch: "
                                  ++ pr_base_ref pr);
                    Called (ListWorkflowRuns (pr_base_ref pr) 1);
                    Logged LWarning ("No successful workflow runs found on branch "
                                     ++ DQ ++ pr_base_ref pr ++ DQ ++ ".")]))
  /\ (forall pr run0 message,
        let findBy := {| fb_token := token; fb_workflowRunId := run_id run0;
                         fb_repositoryOwner := owner env; fb_repositoryName := repo env |} in
        pull_request env = Some pr ->
        fault env (ListWorkflowRuns (pr_base_ref pr) 1) = None ->
        find (fun r => run_head_branch r =? pr_base_ref pr) (workflow_runs env) = Some run0 ->
        fault env (GetArtifact artifactName findBy) = Some message ->
        downloadTargetBranchCoverage env artifactName token tmp w
        = (Thrown message,
           after w [Logged LInfo ("Searching for a successful workflow run on target branch: "
                                  ++ pr_base_ref pr);
                    Called (ListWorkflowRuns (pr_base_ref pr) 1);
                    Logged LInfo ("Found run id " ++ decimal (run_id run0) ++ " on branch "
                                  ++ pr_base_ref pr ++ ".");
                    Called (GetArtifact artifactName findBy)])).
Proof.
  split; [| split].
  - intros Payload. unfold downloadTargetBranchCoverage. rewrite Payload. reflexivity.
  - intros pr Payload Quiet NoRun. unfold downloadTargetBranchCoverage. rewrite Payload.
    cbv zeta. rewrite newest_on_branch, NoRun. autounfold with actions.
    rewrite (bind_returned _ _ _ _ _ (emit_after _ _)).
    rewrite (bind_returned _ _ _ _ _ (call_answers env _ _ _ Quiet)).
    unfold bind, ret. rewrite emit_after. unfold after. simpl. now rewrite <- !app_assoc.
  - intros pr run0 message findBy Payload Quiet Newest Missing. subst findBy.
    unfold downloadTargetBranchCoverage. rewrite Payload.
    cbv zeta. rewrite newest_on_branch, Newest. autounfold with actions.
    rewrite (bind_returned _ _ _ _ _ (emit_after _ _)).
    rewrite (bind_returned _ _ _ _ _ (call_answers env _ _ _ Quiet)).
    rewrite (bind_returned _ _ _ _ _ (emit_after _ _)).
    rewrite (bind_thrown _ _ _ _ _ (call_raises env _ _ _ _ Missing)).
    unfold after. simpl. now rewrite <- !app_assoc.
Qed.

(** X9. When nothing raises, the locator resolves the baseline from the
    first entry of the listing that is on the target branch, whatever
    that run's conclusion: the single downloaded file's path, that run's
    id and that run's head SHA. *)
Theorem X9_locator_resolves_from_newest_on_branch
    (artifactName token tmp file : string) (pr : PullRequest) (run0 : WorkflowRun)
    (id : Z) (w : World) :
  let findBy := {| fb_token := token; fb_workflowRunId := run_id run0;
                   fb_repositoryOwner := owner env; fb_repositoryName := repo env |} in
  let dir := tmp ++ "/" ++ decimal (run_id run0) ++ "-" ++ artifactName ++ "-lcov.info" in
  (forall c, fault env c = None) ->
  pull_request env = Some pr ->
  find (fun r => run_head_branch r =? pr_base_ref pr) (workflow_runs env) = Some run0 ->
  artifact_id env artifactName findBy = Some id ->
  readdir env dir = [file] ->
  fst (downloadTargetBranchCoverage env artifactName token tmp w)
  = Returned (Some {| bl_path := Some (path_join dir file);
                      bl_runId := run_id run0;
                      bl_targetBranchSha := run_head_sha run0 |}).
Proof. intros findBy dir. apply downloadTargetBranchCoverage_takes_newest_on_branch. Qed.

End Baseline_more.

(** ** Every run, whatever raises *)

Section Walk.
Context {rt : Runtime} (env : Env).

(** A call answers what the world answers, or raises. *)
Lemma emits_call_bind {A B : Type} (P : Event -> Prop) (c : Call) (answer : A)
    (k : A -> Action B) :
  P (Called c) -> emits P (k answer) -> emits P (bind (call env c answer) k).
Proof.
  intros Pc Hk w. unfold bind, call at 1. unfold bind. rewrite emit_after.
  destruct (fault env c) as [message |]; simpl.
  - exists [Called c]. split; [reflexivity | auto].
  - destruct (Hk (after w [Called c])) as (evs & L & F).
    exists (Called c :: evs). rewrite L. simpl. rewrite <- app_assoc. split; [reflexivity | auto].
Qed.

Lemma emits_ret_bind {A B : Type} (P : Event -> Prop) (a : A) (k : A -> Action B) :
  emits P (k a) -> emits P (bind (ret a) k).
Proof. intros H. exact H. Qed.

Lemma emits_bind_assoc {A B C : Type} (P : Event -> Prop) (m : Action A)
    (k : A -> Action B) (h : B -> Action C) :
  emits P (bind m (fun a => bind (k a) h)) -> emits P (bind (bind m k) h).
Proof. intros H w. rewrite bind_assoc. apply H. Qed.

Lemma matchesChangedFile_emits (P : Event -> Prop) (line : string) (changedFiles : list string) :
  (forall message, P (Logged LConsole message)) ->
  emits P (matchesChangedFile line changedFiles).
Proof.
  intros Plog. induction changedFiles as [| f rest IH]; simpl.
  - apply emits_ret.
  - apply emits_bind; [apply emits_emit, Plog |]. intros _.
    destruct (startsWith line f); [apply emits_ret | exact IH].
Qed.

Lemma filterLines_emits (P : Event -> Prop) (lines changedFiles : list string) (index : nat) :
  (forall message, P (Logged LConsole message)) ->
  emits P (filterLines lines index changedFiles).
Proof.
  intros Plog. revert index. induction lines as [| line rest IH]; intros index; simpl.
  - apply emits_ret.
  - apply emits_bind.
    + destruct (index <=? 2)%nat; [apply emits_ret | now apply matchesChangedFile_emits].
    + intros keep. apply emits_bind; [apply IH | intros; apply emits_ret].
Qed.

(** The host's side of the comment requests logs nothing. *)
Lemma host_listComments_emits (P : Event -> Prop) : emits P host_listComments.
Proof. intros w. exists []. simpl. now rewrite app_nil_r. Qed.

Lemma host_createComment_emits (P : Event -> Prop) (body : string) :
  emits P (host_createComment body).
Proof. intros w. exists []. simpl. now rewrite app_nil_r. Qed.

Lemma host_updateComment_emits (P : Event -> Prop) (id : Z) (body : string) :
  emits P (host_updateComment id body).
Proof. intros w. exists []. simpl. now rewrite app_nil_r. Qed.

End Walk.

(** Walks through an [emits] goal over the whole program; [side] proves
    that the predicate holds of an event. *)
Ltac walk side :=
  repeat first
    [ progress intros
    | apply emits_ret
    | apply emits_throw
    | apply emits_emit; side
    | apply emits_call; side
    | apply filterLines_emits; intros; side
    | apply host_listComments_emits
    | apply host_createComment_emits
    | apply host_updateComment_emits
    | apply emits_bind
    | apply emits_try_catch
    | match goal with
      | |- emits _ (if ?b then _ else _) => destruct b
      | |- emits _ (match ?x with _ => _ end) => destruct x
      end ].

Ltac open_program :=
  unfold genhtml, mergeCoverages, summarize, detail, changedFilesFilter,
    calculatePreviousCoverage, downloadTargetBranchCoverage, downloadSingleFileArtifact,
    upsertComment, createComment, payload_pull_request;
  autounfold with actions; cbv zeta.

Lemma append_nil_r (s : string) : s ++ "" = s.
Proof. induction s as [| c s IH]; simpl; [reflexivity | now rewrite IH]. Qed.

(** ** What the helpers of the comment return *)

Section Steady.
Context {rt : Runtime} (env : Env).

Lemma steady_ret {A : Type} (a : A) : steady (ret a).
Proof. intros w w'. reflexivity. Qed.

Lemma steady_throw {A : Type} (message : string) : steady (@throw A message).
Proof. intros w w'. reflexivity. Qed.

Lemma steady_emit (e : Event) : steady (emit e).
Proof. intros w w'. reflexivity. Qed.

Lemma steady_bind {A B : Type} (m : Action A) (k : A -> Action B) :
  steady m -> (forall a, steady (k a)) -> steady (bind m k).
Proof.
  intros Hm Hk w w'. specialize (Hm w w'). unfold bind.
  destruct (m w) as [[a | e] w1], (m w') as [[a' | e'] w1']; simpl in Hm;
    try discriminate; injection Hm as <-; [apply Hk | reflexivity].
Qed.

Lemma steady_try_catch {A : Type} (m : Action A) (h : string -> Action A) :
  steady m -> (forall e, steady (h e)) -> steady (try_catch m h).
Proof.
  intros Hm Hh w w'. specialize (Hm w w'). unfold try_catch.
  destruct (m w) as [[a | e] w1], (m w') as [[a' | e'] w1']; simpl in Hm;
    try discriminate; injection Hm as <-; [reflexivity | apply Hh].
Qed.

Lemma steady_call {A : Type} (c : Call) (answer : A) : steady (call env c answer).
Proof.
  unfold call. apply steady_bind; [apply steady_emit |]. intros _.
  destruct (fault env c); [apply steady_throw | apply steady_ret].
Qed.

Lemma steady_matchesChangedFile (line : string) (changedFiles : list string) :
  steady (matchesChangedFile line changedFiles).
Proof.
  induction changedFiles as [| f rest IH]; simpl.
  - apply steady_ret.
  - apply steady_bind; [apply steady_emit |]. intros _.
    destruct (startsWith line f); [apply steady_ret | exact IH].
Qed.

Lemma steady_filterLines (lines changedFiles : list string) (index : nat) :
  steady (filterLines lines index changedFiles).
Proof.
  revert index. induction lines as [| line rest IH]; intros index; simpl.
  - apply steady_ret.
  - apply steady_bind.
    + destruct (index <=? 2)%nat; [apply steady_ret | apply steady_matchesChangedFile].
    + intros keep. apply steady_bind; [apply IH | intros; apply steady_ret].
Qed.

(** What a steady action returns is its [value_of]. *)
Lemma steady_value {A : Type} (m : Action A) (default a : A) (w w' : World) :
  steady m -> m w = (Returned a, w') -> a = value_of default m.
Proof.
  intros H E. unfold value_of. rewrite (H (start []) w), E. reflexivity.
Qed.

End Steady.

(** Walks through a [steady] goal along the shape of the action. *)
Ltac still :=
  repeat first
    [ progress intros
    | apply steady_ret
    | apply steady_throw
    | apply steady_emit
    | apply steady_call
    | apply steady_filterLines
    | apply steady_bind
    | apply steady_try_catch
    | match goal with
      | |- steady (if ?b then _ else _) => destruct b
      | |- steady (match ?x with _ => _ end) => destruct x
      end ].

Section Comment_body.
Context {rt : Runtime} (env : Env).

Lemma summarize_steady (coverageFile : string) : steady (summarize env coverageFile).
Proof. open_program. still. Qed.

Lemma detail_steady (coverageFile : string) : steady (detail env coverageFile).
Proof. open_program. still. Qed.

Lemma calculatePreviousCoverage_steady (artifactName token tmp : string) :
  steady (calculatePreviousCoverage env artifactName token tmp).
Proof. open_program. still. Qed.

(** A step whose value is known: the rest runs on that value. *)
Lemma emits_bind_value {A B : Type} (P : Event -> Prop) (m : Action A) (default : A)
    (k : A -> Action B) :
  steady m -> emits P m -> emits P (k (value_of default m)) -> emits P (bind m k).
Proof.
  intros Hs Hm Hk w. destruct (Hm w) as (e1 & L1 & F1). unfold bind.
  destruct (m w) as [[a | e] w1] eqn:E; simpl in L1.
  - rewrite (steady_value m default a w w1 Hs E).
    destruct (Hk w1) as (e2 & L2 & F2). exists (e1 ++ e2)%list.
    rewrite L2, L1, app_assoc. split; [reflexivity | now apply Forall_app].
  - now exists e1.
Qed.

(** The body [run] hands to the comment request. *)
Lemma composed_body (pr : PullRequest) :
  (if negb (isMinimumCoverageReached (totalCoverage env) (getInput env "minimum-coverage"))
   then commentBody env (getInput env "title-prefix") (getInput env "additional-message") pr
          (totalCoverage env) (resolved_baseline env) (summary_text env) (details_text env)
        ++ LF ++ ":no_entry: "
        ++ errorMessage (totalCoverage env) (getInput env "minimum-coverage")
   else commentBody env (getInput env "title-prefix") (getInput env "additional-message") pr
          (totalCoverage env) (resolved_baseline env) (summary_text env) (details_text env))
  = published_body env pr.
Proof.
  unfold published_body, gate_notice.
  destruct (isMinimumCoverageReached _ _); cbn [negb]; [now rewrite append_nil_r | reflexivity].
Qed.

(** In every run, each request that writes a comment carries the body of
    this run's comment. *)
Lemma run_writes_body : emits (writes_body env) (run env).
Proof.
  unfold run. cbv zeta. apply emits_try_catch; [| walk ltac:(exact I)].
  apply emits_bind; [walk ltac:(exact I) |]. intros coverageFiles.
  apply emits_bind; [open_program; walk ltac:(exact I) |]. intros _.
  unfold mergeCoverages at 1. cbv zeta. apply emits_bind_assoc.
  apply emits_call_bind; [exact I |].
  apply emits_ret_bind.
  apply emits_call_bind; [exact I |].
  fold (tmpPath env). fold (mergedCoverageFile env). fold (totalCoverage env).
  apply emits_bind; [walk ltac:(exact I) |]. intros _.
  apply emits_bind; [| open_program; walk ltac:(exact I)].
  destruct (negb (trim (getInput env "github-token") =? "")
            && existsb (String.eqb (eventName env)) events);
    [| open_program; walk ltac:(exact I)].
  apply (emits_bind_value _ _ "" _ (summarize_steady _));
    [open_program; walk ltac:(exact I) |].
  fold (summary_text env).
  apply (emits_bind_value _ _ "" _ (detail_steady _));
    [open_program; walk ltac:(exact I) |].
  fold (details_text env).
  apply (emits_bind_value _ _ None _ (calculatePreviousCoverage_steady _ _ _));
    [open_program; walk ltac:(exact I) |].
  fold (resolved_baseline env).
  unfold payload_pull_request at 1.
  destruct (pull_request env) as [pr |] eqn:Payload; [| walk ltac:(exact I)].
  apply emits_ret_bind. rewrite composed_body.
  assert (W : exists pr', pull_request env = Some pr'
                          /\ published_body env pr = published_body env pr')
    by (exists pr; now rewrite Payload).
  open_program. rewrite Payload.
  walk ltac:(first [ exact I | exact W ]).
Qed.

End Comment_body.

(** ** The ends of a run *)

Section Every_run.
Context {rt : Runtime} (env : Env).

(** X10. In every run, whatever raises, each request that creates or
    updates a comment carries the report of this run: the body [run]
    composes from the run's coverage and from what its helpers return,
    from any world, as baseline, summary and detail, followed by the
    gate notice, for the pull request of the payload.  The notice is
    there exactly when the coverage is below the minimum: the body is
    the composed body alone when the minimum is reached, and the
    composed body followed by a line feed, ":no_entry: " and the gate's
    message when it is not.  The body starts with the header marker of
    this run's title prefix, which is what update mode searches for. *)
Theorem X10_comments_written_are_reports (thread : list Comment) :
  let composed pr :=
    commentBody env (getInput env "title-prefix") (getInput env "additional-message") pr
      (totalCoverage env) (resolved_baseline env) (summary_text env) (details_text env) in
  let minimum := getInput env "minimum-coverage" in
  Forall (writes_report env) (trace_of env thread)
  /\ (forall pr,
        (isMinimumCoverageReached (totalCoverage env) minimum = true ->
         published_body env pr = composed pr)
        /\ (isMinimumCoverageReached (totalCoverage env) minimum = false ->
            published_body env pr
            = composed pr ++ LF ++ ":no_entry: " ++ errorMessage (totalCoverage env) minimum))
  /\ (forall w summary w',
        summarize env (mergedCoverageFile env) w = (Returned summary, w') ->
        summary = summary_text env)
  /\ (forall w details w',
        detail env (mergedCoverageFile env) w = (Returned details, w') ->
        details = details_text env)
  /\ (forall w previous w',
        calculatePreviousCoverage env (getInput env "coverage-artifact-name")
          (trim (getInput env "github-token")) (tmpPath env) w = (Returned previous, w') ->
        previous = resolved_baseline env).
Proof.
  intros composed minimum. split; [| split; [| split; [| split]]].
  - destruct (run_writes_body env (start thread)) as (evs & L & F).
    unfold trace_of. rewrite L. simpl. revert F. apply Forall_impl.
    intros [[] | | |]; try exact (fun H => H); intros (pr & Payload & ->).
    all: split; [now exists pr |].
    all: unfold published_body, commentBody, startsWith; cbv zeta.
    all: rewrite !append_assoc; apply prefix_app.
  - intros pr. unfold published_body, gate_notice. fold minimum. fold (composed pr).
    split; intros ->; [apply append_nil_r | reflexivity].
  - intros w summary w'. apply steady_value, summarize_steady.
  - intros w details w'. apply steady_value, detail_steady.
  - intros w previous w'. apply steady_value, calculatePreviousCoverage_steady.
Qed.

Lemma settles_bind {A : Type} (m : Action A) (k : A -> Action unit) :
  emits plain m -> (forall a, settles env (k a)) -> settles env (bind m k).
Proof.
  intros Hm Hk w Pw. destruct (Hm w) as (evs & L & F).
  specialize (Hk) . unfold try_catch, bind.
  destruct (m w) as [[a | e] w1] eqn:E; simpl in L.
  - apply (Hk a w1). rewrite L. apply Forall_app. now split.
  - simpl. apply run_aborted. rewrite L. apply Forall_app. now split.
Qed.

Lemma settles_call_bind {A : Type} (c : Call) (answer : A) (k : A -> Action unit) :
  settles env (k answer) -> settles env (bind (call env c answer) k).
Proof.
  intros Hk w Pw. unfold try_catch, bind, call at 1. unfold bind. rewrite emit_after.
  assert (P1 : Forall plain (log (after w [Called c]))).
  { simpl. apply Forall_app. split; [exact Pw | repeat constructor]. }
  destruct (fault env c) as [message |]; simpl.
  - now apply (run_aborted env (log w ++ [Called c])).
  - apply (Hk (after w [Called c]) P1).
Qed.

Lemma settles_bind_assoc {A B : Type} (m : Action A) (k : A -> Action B)
    (h : B -> Action unit) :
  settles env (bind m (fun a => bind (k a) h)) -> settles env (bind (bind m k) h).
Proof. intros H w Pw. unfold try_catch. rewrite bind_assoc. now apply H. Qed.

(** The last two statements of the [try]: the output, then the gate. *)
Lemma output_and_gate_settle :
  settles env
    (bind (core_setOutput "total-coverage" (totalCoverage env))
       (fun _ => if negb (isMinimumCoverageReached (totalCoverage env)
                            (getInput env "minimum-coverage"))
                 then throw (errorMessage (totalCoverage env)
                                          (getInput env "minimum-coverage"))
                 else ret tt)).
Proof.
  intros w Pw. unfold try_catch, core_setOutput.
  rewrite (bind_returned _ _ _ _ _ (emit_after _ w)).
  destruct (isMinimumCoverageReached _ _) eqn:G; simpl.
  - now apply run_passed.
  - rewrite <- app_assoc. now apply run_gated.
Qed.

(** Every run ends in one of the three ways. *)
Lemma run_ends (thread : list Comment) :
  run_end env (trace_of env thread).
Proof.
  unfold trace_of, run. cbv zeta.
  match goal with |- run_end env (log (snd (try_catch ?body _ _))) =>
    assert (S : settles env body) end.
  { apply settles_bind; [walk ltac:(exact I) |]. intros coverageFiles.
    apply settles_bind; [open_program; walk ltac:(exact I) |]. intros _.
    unfold mergeCoverages at 1. cbv zeta. apply settles_bind_assoc.
    apply settles_call_bind.
    match goal with |- settles env (bind (ret ?a) ?k) => change (settles env (k a)) end.
    cbv beta. apply settles_call_bind.
    fold (tmpPath env). fold (mergedCoverageFile env). fold (totalCoverage env).
    apply settles_bind; [walk ltac:(exact I) |]. intros _.
    apply settles_bind; [open_program; walk ltac:(exact I) |]. intros _.
    apply settles_bind; [walk ltac:(exact I) |]. intros _.
    apply output_and_gate_settle. }
  apply (S (start thread)). constructor.
Qed.

(** X11. Every run, whatever raises, ends in one of three ways, after
    plain events only: aborted, with one [setFailed] as its last event
    and no output; passed, with the output as its last event and the
    coverage at or above the minimum; or gated, with the output followed
    by one [setFailed] of the gate's message as its last events.  So the
    output is set at most once, [setFailed] is called at most once and
    nothing follows it, and a failure that follows the output is the
    gate's. *)
Theorem X11_three_ends_of_a_run (thread : list Comment) :
  run_end env (trace_of env thread).
Proof. apply run_ends. Qed.

(** X12. Unless the update-comment input is exactly ["true"], a run
    never lists the comments of the pull request and never updates one,
    whatever raises: it only ever creates a new comment. *)
Theorem X12_create_mode_leaves_comments_alone (thread : list Comment) :
  getInput env "update-comment" <> "true" ->
  Forall leaves_comments_alone (trace_of env thread).
Proof.
  intros Mode. apply String.eqb_neq in Mode.
  assert (E : emits leaves_comments_alone (run env)).
  { unfold run. cbv zeta. rewrite Mode. cbv iota.
    open_program. walk ltac:(exact I). }
  destruct (E (start thread)) as (evs & L & F). unfold trace_of. now rewrite L.
Qed.

End Every_run.

(** ** A call that raises outside the baseline lookup ends the run *)

Section Accounts.
Context {rt : Runtime} (env : Env).

Lemma raised_by_app (message : string) (evs1 evs2 : list Event) :
  Forall (answered env) evs1 -> raised_by env message evs2 ->
  raised_by env message (evs1 ++ evs2).
Proof.
  intros F1 [F2 | (pre & c & -> & Fp & L & R)].
  - left. now apply Forall_app.
  - right. exists (evs1 ++ pre)%list, c. rewrite app_assoc.
    split; [reflexivity |]. split; [now apply Forall_app | now split].
Qed.

Lemma accounts_ret {A : Type} (a : A) : accounts env (ret a).
Proof. intros w. exists []. simpl. rewrite app_nil_r. split; [reflexivity | constructor]. Qed.

Lemma accounts_throw {A : Type} (message : string) : accounts env (@throw A message).
Proof.
  intros w. exists []. simpl. rewrite app_nil_r. split; [reflexivity | left; constructor].
Qed.

Lemma accounts_emit (e : Event) : answered env e -> accounts env (emit e).
Proof. intros H w. exists [e]. simpl. split; [reflexivity | auto]. Qed.

Lemma accounts_call {A : Type} (c : Call) (answer : A) : accounts env (call env c answer).
Proof.
  intros w. exists [Called c]. unfold call, bind. rewrite emit_after.
  destruct (fault env c) as [message |] eqn:R; simpl; (split; [reflexivity |]).
  - destruct (lookup_call c) eqn:L.
    + left. constructor; [| constructor]. simpl. congruence.
    + right. exists [], c. repeat split; auto.
  - constructor; [| constructor]. intros _. exact R.
Qed.

Lemma accounts_bind {A B : Type} (m : Action A) (k : A -> Action B) :
  accounts env m -> (forall a, accounts env (k a)) -> accounts env (bind m k).
Proof.
  intros Hm Hk w. destruct (Hm w) as (e1 & L1 & O1). unfold bind.
  destruct (m w) as [[a | e] w1]; simpl in L1, O1.
  - destruct (Hk a w1) as (e2 & L2 & O2). exists (e1 ++ e2)%list.
    rewrite L2, L1, app_assoc. split; [reflexivity |].
    destruct (fst (k a w1)); [now apply Forall_app | now apply raised_by_app].
  - now exists e1.
Qed.

(** Events that are all answered account for themselves. *)
Lemma accounts_of_emits {A : Type} (m : Action A) :
  emits (answered env) m -> accounts env m.
Proof.
  intros H w. destruct (H w) as (evs & L & F). exists evs. split; [exact L |].
  destruct (fst (m w)); [exact F | now left].
Qed.

(** A [try] around calls of the lookup only. *)
Lemma accounts_try_catch {A : Type} (m : Action A) (h : string -> Action A) :
  emits (answered env) m -> (forall e, accounts env (h e)) -> accounts env (try_catch m h).
Proof.
  intros Hm Hh w. destruct (Hm w) as (e1 & L1 & F1). unfold try_catch.
  destruct (m w) as [[a | e] w1]; simpl in L1.
  - now exists e1.
  - destruct (Hh e w1) as (e2 & L2 & O2). exists (e1 ++ e2)%list.
    rewrite L2, L1, app_assoc. split; [reflexivity |].
    destruct (fst (h e w1)); [now apply Forall_app | now apply raised_by_app].
Qed.

End Accounts.

(** Walks through an [accounts] goal over the whole program. *)
Ltac audit :=
  repeat first
    [ progress intros
    | apply accounts_ret
    | apply accounts_throw
    | apply accounts_emit; exact I
    | apply accounts_call
    | apply accounts_bind
    | apply accounts_try_catch;
      [ walk ltac:(first [ exact I | cbn; discriminate ]) | ]
    | match goal with
      | |- accounts _ (filterLines _ _ _) =>
          apply accounts_of_emits, filterLines_emits; intros; exact I
      | |- accounts _ host_listComments =>
          apply accounts_of_emits, host_listComments_emits
      | |- accounts _ (host_createComment _) =>
          apply accounts_of_emits, host_createComment_emits
      | |- accounts _ (host_updateComment _ _) =>
          apply accounts_of_emits, host_updateComment_emits
      | |- accounts _ (if ?b then _ else _) => destruct b
      | |- accounts _ (match ?x with _ => _ end) => destruct x
      end ].

Section Raised.
Context {rt : Runtime} (env : Env).

(** A call outside the baseline lookup that raises is the last thing a
    run does before it fails with that call's message: nothing set an
    output or failed the run before, and nothing follows. *)
Lemma raised_call_ends_run (thread : list Comment) (c : Call) (message : string) :
  In (Called c) (trace_of env thread) -> lookup_call c = false ->
  fault env c = Some message ->
  exists pre,
    trace_of env thread = (pre ++ [Called c; FailedSet message])%list /\ Forall plain pre.
Proof.
  intros Made Outside Raised.
  assert (T : exists pre, trace_of env thread = (pre ++ [Called c; FailedSet message])%list).
  { revert Made. unfold trace_of, run. cbv zeta.
    match goal with |- context [try_catch ?body _ _] =>
      assert (A : accounts env body) by (open_program; audit) end.
    unfold try_catch.
    match goal with |- context [let (o, w') := ?body ?w in _] =>
      destruct (A w) as (evs & L & O); destruct (body w) as [[u | e] w1] end;
      simpl in L, O |- *.
    - rewrite L. intros Made. rewrite Forall_forall in O.
      specialize (O _ Made Outside). congruence.
    - rewrite L. intros Made. apply in_app_or in Made.
      destruct Made as [Made | [Made | []]]; [| discriminate Made].
      destruct O as [O | (pre & c' & -> & Fp & L' & R')].
      + rewrite Forall_forall in O. specialize (O _ Made Outside). congruence.
      + apply in_app_or in Made. destruct Made as [Made | [Made | []]].
        * rewrite Forall_forall in Fp. specialize (Fp _ Made Outside). congruence.
        * injection Made as ->. exists pre. rewrite <- app_assoc.
          replace e with message by congruence. reflexivity. }
  destruct T as (pre & T). exists pre. split; [exact T |].
  pose proof (run_ends env thread) as R. rewrite T in R.
  change (pre ++ [Called c; FailedSet message])%list
    with (pre ++ [Called c] ++ [FailedSet message])%list in R.
  rewrite app_assoc in R.
  inversion R as [pre' m' F' E | pre' F' G E | pre' F' G E].
  - apply app_inj_tail in E. destruct E as [-> _].
    apply Forall_app in F'. tauto.
  - apply app_inj_tail in E. destruct E as [_ E]. discriminate E.
  - change (pre' ++ [OutputSet "total-coverage" (totalCoverage env);
                     FailedSet (errorMessage (totalCoverage env)
                                             (getInput env "minimum-coverage"))])%list
      with (pre' ++ [OutputSet "total-coverage" (totalCoverage env)]
                 ++ [FailedSet (errorMessage (totalCoverage env)
                                             (getInput env "minimum-coverage"))])%list in E.
    rewrite app_assoc in E. apply app_inj_tail in E. destruct E as [E _].
    apply app_inj_tail in E. destruct E as [_ E]. discriminate E.
Qed.

End Raised.

(** ** A run in which every call made outside the lookup returns *)

Section Agrees.
Context {rt : Runtime} (env : Env).

Lemma agrees_refl {A : Type} (m : Action A) : agrees env m m.
Proof. intros w. now left. Qed.

Lemma agrees_bind {A B : Type} (m m' : Action A) (k k' : A -> Action B) :
  agrees env m m' -> (forall a, agrees env (k a) (k' a)) -> agrees env (bind m k) (bind m' k').
Proof.
  intros Hm Hk w. unfold bind. destruct (Hm w) as [E | (message & c & T & Rest)].
  - rewrite E. destruct (m' w) as [[a | e] w1]; [apply Hk | now left].
  - right. exists message, c. destruct (m w) as [[a | e] w1]; simpl in T; [discriminate |].
    injection T as ->. exact (conj eq_refl Rest).
Qed.

Lemma agrees_try_catch {A : Type} (m : Action A) (h h' : string -> Action A) :
  (forall e, agrees env (h e) (h' e)) -> agrees env (try_catch m h) (try_catch m h').
Proof.
  intros Hh w. unfold try_catch. destruct (m w) as [[a | e] w1]; [now left | apply Hh].
Qed.

Lemma agrees_call {A : Type} (c : Call) (answer : A) :
  lookup_call c = false -> agrees env (call env c answer) (call (silenced env) c answer).
Proof.
  intros Outside w. unfold call, bind. rewrite !emit_after. cbn [fault silenced].
  rewrite Outside. destruct (fault env c) as [message |] eqn:R; [| now left].
  right. exists message, c. simpl. split; [reflexivity |].
  split; [apply in_or_app; right; now left |]. split; [exact Outside | congruence].
Qed.

Lemma silenced_only_lookup : only_lookup_faults (silenced env).
Proof. intros c Outside. cbn [fault silenced]. now rewrite Outside. Qed.

End Agrees.

(** Walks through an [agrees] goal between a run and the same run in the
    silenced world. *)
Ltac compare :=
  repeat first
    [ progress intros
    | apply agrees_call; reflexivity
    | apply agrees_bind
    | apply agrees_try_catch
    | match goal with
      | |- agrees _ (if ?b then _ else _) _ => destruct b
      | |- agrees _ (match ?x with _ => _ end) _ => destruct x
      end
    | apply agrees_refl ].

Section Undisturbed.
Context {rt : Runtime} (env : Env).

(** Such a run is the run of the silenced world. *)
Lemma undisturbed_run (thread : list Comment) :
  undisturbed env thread -> trace_of env thread = trace_of (silenced env) thread.
Proof.
  unfold undisturbed, trace_of, run. cbv zeta.
  match goal with |- context [snd (try_catch ?body _ _)] => set (m := body) end.
  match goal with |- context [try_catch ?body _ _ ] =>
    lazymatch body with m => fail | _ => set (m' := body) end end.
  assert (A : agrees env m m').
  { subst m m'. open_program.
    cbn [getInput eventName pull_request owner repo action workflow runNumber context_runId
         tmpdir glob_result exec_output lcov_total changed_files workflow_runs artifact_id
         readdir silenced].
    compare. }
  intros Quiet. unfold try_catch.
  destruct (A (start thread)) as [E | (message & c & T & Made & Outside & Raised)].
  - now rewrite E.
  - exfalso. apply Raised, Quiet; [| exact Outside]. unfold try_catch.
    destruct (m (start thread)) as [[u | e] w1]; simpl in T; [discriminate |].
    simpl in Made |- *. apply in_or_app. now left.
Qed.

Lemma undisturbed_reaches_gate (thread : list Comment) :
  undisturbed env thread -> payload_ok env ->
  exists pre,
    trace_of env thread
    = (pre ++ OutputSet "total-coverage" (totalCoverage env)
           :: (if isMinimumCoverageReached (totalCoverage env) (getInput env "minimum-coverage")
               then []
               else [FailedSet (errorMessage (totalCoverage env)
                                             (getInput env "minimum-coverage"))]))%list
    /\ Forall plain pre
    /\ (hasGithubToken env && isPR env = true -> Exists publish_call pre)
    /\ (hasGithubToken env && truthy (getInput env "coverage-artifact-name") = true ->
        In (Called (UploadArtifact (getInput env "coverage-artifact-name")
                      [mergedCoverageFile env] (path_dirname (mergedCoverageFile env)))) pre).
Proof.
  intros Quiet Payload. rewrite (undisturbed_run thread Quiet).
  exact (run_reaches_gate (silenced env) (silenced_only_lookup env) Payload thread).
Qed.

End Undisturbed.

(** ** Runs that write no comment *)

Section No_comment.
Context {rt : Runtime} (env : Env).
Hypothesis token : hasGithubToken env = true.

Ltac unravel quiet :=
  repeat first
    [ rewrite bind_assoc
    | rewrite bind_ret
    | erewrite bind_returned by (apply call_answers; apply quiet; reflexivity)
    | rewrite (bind_returned _ _ _ _ _ (emit_after _ _)) ].

(** X13. With a token on an event that is no pull request, a run makes
    no request about a pull request, its comments or the baseline,
    whatever raises; and when no call raises its log is exactly
    [non_pr_trace]: it reports the event with [core.info], still uploads
    the merged trace when an artifact name is configured, sets the
    output and applies the gate. *)
Theorem X13_other_events (thread : list Comment) :
  isPR env = false ->
  Forall off_pull_request (trace_of env thread)
  /\ (only_lookup_faults env -> trace_of env thread = non_pr_trace env).
Proof.
  intros Event. split.
  - assert (E : emits off_pull_request (run env)).
    { unfold run. cbv zeta.
      change (negb (trim (getInput env "github-token") =? "")) with (hasGithubToken env).
      change (existsb (String.eqb (eventName env)) events) with (isPR env).
      rewrite token, Event. cbn [andb negb]. cbv iota.
      open_program. walk ltac:(exact I). }
    destruct (E (start thread)) as (evs & L & F). unfold trace_of. now rewrite L.
  - intros Quiet. unfold trace_of, run, try_catch. cbv zeta.
    change (negb (trim (getInput env "github-token") =? "")) with (hasGithubToken env).
    change (existsb (String.eqb (eventName env)) events) with (isPR env).
    rewrite token, Event. cbn [andb negb]. cbv iota.
    unfold genhtml, mergeCoverages, non_pr_trace, opening_trace, htmlDirectory,
      mergedCoverageFile, totalCoverage, tmpPath.
    cbv zeta. autounfold with actions.
    destruct (negb (trim (getInput env "artifact-name") =? ""));
      destruct (truthy (getInput env "coverage-artifact-name"));
      unravel Quiet;
      destruct (isMinimumCoverageReached _ _); reflexivity.
Qed.

(** X14. With a token on a pull-request event whose payload carries no
    pull request, a run in which no call raises ends failed with the
    [TypeError] of reading the pull-request number: after the two report
    listings of the tool, before any request about the pull request, and
    without the upload of the merged trace or the output. *)
Theorem X14_missing_payload (thread : list Comment) :
  isPR env = true ->
  pull_request env = None ->
  only_lookup_faults env ->
  trace_of env thread = missing_payload_trace env.
Proof.
  intros Event Payload Quiet. unfold trace_of, run, try_catch. cbv zeta.
  change (negb (trim (getInput env "github-token") =? "")) with (hasGithubToken env).
  change (existsb (String.eqb (eventName env)) events) with (isPR env).
  rewrite token, Event. cbn [andb]. cbv iota.
  unfold genhtml, mergeCoverages, summarize, detail, payload_pull_request,
    missing_payload_trace, opening_trace, htmlDirectory, mergedCoverageFile, tmpPath.
  rewrite Payload. cbv zeta. autounfold with actions.
  destruct (negb (trim (getInput env "artifact-name") =? ""));
    unravel Quiet; reflexivity.
Qed.

End No_comment.

(** ** A run without a token whose client refuses the empty token *)

Section Empty_token.
Context {rt : Runtime} (env : Env).

(** X15. [run] asks for the client before it tests whether it has a
    token.  When the token is empty and the client raises on it, as
    [getOctokit] of the toolkit does, a run whose earlier calls return
    ends failed with the client's message right after the aggregate
    coverage was computed: the [core.info] lines of the branch for an
    empty token are not reached, and neither are the upload of the
    merged trace or the [total-coverage] output. *)
Theorem X15_empty_token_fails_at_the_client (thread : list Comment) (message : string) :
  hasGithubToken env = false ->
  fault env (GetOctokit "") = Some message ->
  (forall c, c <> GetOctokit "" -> fault env c = None) ->
  trace_of env thread = (opening_trace env ++ [FailedSet message])%list.
Proof.
  intros Empty Refused Quiet. unfold trace_of, run, try_catch. cbv zeta.
  unfold genhtml, mergeCoverages, opening_trace, htmlDirectory, mergedCoverageFile, tmpPath.
  rewrite (token_is_empty env Empty). cbv zeta. autounfold with actions.
  destruct (negb (trim (getInput env "artifact-name") =? ""));
    repeat first
      [ rewrite bind_assoc
      | rewrite bind_ret
      | erewrite bind_returned by (apply call_answers; apply Quiet; discriminate)
      | rewrite (bind_returned _ _ _ _ _ (emit_after _ _)) ];
    rewrite (bind_thrown _ _ _ _ _ (call_raises env _ _ _ _ Refused));
    reflexivity.
Qed.

End Empty_token.

(** ** Concrete runs for the further properties *)

Section More_scenarios.

Lemma gated_run_payload :
  pull_request gated_run
  = Some {| pr_number := 7; pr_head_sha := "0123456789abcdef"; pr_base_ref := "main" |}.
Proof. reflexivity. Qed.

(** The summary of the tool without its banner. *)
Lemma X2_summary_witness :
  fst (summarize gated_run "/tmp/lcov/lcov.info" (start []))
  = Returned ("Summary coverage rate:" ++ LF ++ "  lines......: 85.0% (85 of 100 lines)").
Proof.
  apply (proj2 (X2_summarize_drops_first_line (rt := node) gated_run "/tmp/lcov/lcov.info"
                  "Reading tracefile /tmp/lcov/lcov.info"
                  ("Summary coverage rate:" ++ LF ++ "  lines......: 85.0% (85 of 100 lines)")
                  (start []) eq_refl eq_refl eq_refl)).
  reflexivity.
Defined.

(** The listing of two files, one of them changed. *)
Lemma X4_listing_witness :
  fst (detail gated_run "/tmp/lcov/lcov.info" (start []))
  = Returned (LF ++ "  " ++ "            |Lines       |Functions  |Branches"
              ++ LF ++ "  " ++ "Filename    |Rate     Num|Rate    Num|Rate     Num"
              ++ LF ++ "  " ++ "=================================================="
              ++ LF ++ "  " ++ "src/b.c     |70.0%     20| 100%     3|    -      0").
Proof.
  exact (X4_detail_on_a_listing (rt := node) gated_run "/tmp/lcov/lcov.info"
           "Reading tracefile /tmp/lcov/lcov.info"
           "            |Lines       |Functions  |Branches"
           "Filename    |Rate     Num|Rate    Num|Rate     Num"
           "=================================================="
           "=================================================="
           "      Total:|80.0%     30| 100%     5|    -      0"
           [ "src/a.c     | 100%     10| 100%     2|    -      0";
             "src/b.c     |70.0%     20| 100%     3|    -      0" ]
           _ (start []) eq_refl eq_refl gated_run_payload eq_refl).
Defined.

(** Two publications on a thread of two comments. *)
Lemma X5_convergence_witness :
  thread_after_two_reports gated_run short_thread
  = (short_thread ++ [{| comment_id := 3; comment_body := second_report |}])%list.
Proof.
  apply (X5_update_mode_converges gated_run (no_fault_only_lookup _ _) _
           gated_run_payload short_thread first_report second_report report_marker).
  - vm_compute. lia.
  - intros c [<- | [<- | []]]; reflexivity.
  - vm_compute. reflexivity.
  - vm_compute. reflexivity.
Defined.

(** An update of the report between two other comments. *)
Lemma X6_update_witness :
  map comment_id (comments (snd (upsertComment gated_run second_report report_marker
                                   (start reported_thread))))
  = [1; 2; 3]%Z.
Proof.
  apply (X6_update_rewrites_one_comment gated_run (no_fault_only_lookup _ _) _
           gated_run_payload second_report report_marker (start reported_thread)
           {| comment_id := 2; comment_body := first_report |}).
  vm_compute. reflexivity.
Defined.

(** An unreadable baseline file raises out of the resolver. *)
Lemma X7_unreadable_baseline_witness :
  fst (calculatePreviousCoverage unreadable_run "coverage" "secret" "/tmp/lcov" (start []))
  = Thrown "ENOENT: no such file or directory".
Proof.
  erewrite (X7_resolver_after_the_lookup (rt := node) unreadable_run)
    by (vm_compute; reflexivity).
  reflexivity.
Defined.

(** No run on the target branch: no baseline, and no artifact request. *)
Lemma X8_no_run_on_branch_witness :
  fst (downloadTargetBranchCoverage branchless_run "coverage" "secret" "/tmp/lcov" (start []))
  = Returned None.
Proof.
  rewrite (proj1 (proj2 (X8_locator_absent (rt := node) branchless_run "coverage" "secret"
                           "/tmp/lcov" (start []))) _ gated_run_payload eq_refl eq_refl).
  reflexivity.
Defined.

(** The newest run on main is run 12. *)
Lemma X9_newest_run_witness :
  fst (downloadTargetBranchCoverage gated_run "coverage" "secret" "/tmp/lcov" (start []))
  = Returned (Some {| bl_path := Some "/tmp/lcov/12-coverage-lcov.info/lcov.info";
                      bl_runId := 12;
                      bl_targetBranchSha := "bbbbbbb" |}).
Proof.
  exact (X9_locator_resolves_from_newest_on_branch (rt := node) gated_run "coverage" "secret"
           "/tmp/lcov" "lcov.info" _
           {| run_id := 12; run_head_branch := "main"; run_head_sha := "bbbbbbb";
              run_conclusion := "failure" |}
           500 (start []) (fun _ => eq_refl) gated_run_payload eq_refl eq_refl eq_refl).
Defined.

(** The gated run is in create mode. *)
Lemma X12_create_mode_witness :
  Forall leaves_comments_alone (trace_of gated_run []).
Proof.
  apply (X12_create_mode_leaves_comments_alone (rt := node) gated_run []). discriminate.
Defined.

(** A push with a token. *)
Lemma X13_push_witness :
  trace_of push_run [] = non_pr_trace push_run.
Proof.
  apply (proj2 (X13_other_events (rt := node) push_run eq_refl [] eq_refl)).
  intros c _. reflexivity.
Defined.

(** A pull-request event without its payload. *)
Lemma X14_missing_payload_witness :
  failure_of (trace_of payloadless_run [])
  = Some "Cannot read properties of undefined (reading 'number')".
Proof.
  rewrite (X14_missing_payload (rt := node) payloadless_run eq_refl [] eq_refl eq_refl
             (fun c _ => eq_refl)).
  reflexivity.
Defined.

(** The client refuses the empty token of the run without a token. *)
Lemma X15_refused_empty_token_witness :
  failure_of (trace_of tokenless_run []) = Some "Parameter token or opts.auth is required"
  /\ existsb sets_output (trace_of tokenless_run []) = false.
Proof.
  rewrite (X15_empty_token_fails_at_the_client (rt := node) tokenless_run []
             "Parameter token or opts.auth is required" eq_refl eq_refl).
  - split; reflexivity.
  - intros [] Other; try reflexivity.
    destruct token; [now contradiction Other | reflexivity].
Defined.

End More_scenarios.

(** * The gate, the output, the token and the message line in a run *)

Section Run_claims.
Context {rt : Runtime} (env : Env).



(** C1 (amended). In a run in which every call made outside the baseline
    lookup returns, and whose pull-request event carries its pull
    request in the payload, the gate decides the end.  If the aggregate
    coverage is strictly below the minimum, the run ends failed with the
    message that names both numbers, and [setFailed] is the last thing
    that happens: before it come the comment request (with a token on a
    pull-request event), the upload of the merged trace (with a token
    and an artifact name) and, right before it, the [total-coverage]
    output.  If the coverage is at least the minimum, the run does not
    fail.  In every run, a call outside the baseline lookup that raises
    is the last thing the run does before it fails with that call's
    message: no output was set and nothing failed before it, and nothing
    is attempted after it. *)
Theorem C1_gate_after_reporting (thread : list Comment) :
  let total := totalCoverage env in
  let minimum := getInput env "minimum-coverage" in
  let message := errorMessage total minimum in
  (undisturbed env thread -> payload_ok env ->
   (Number_lessThan total (StringToNumber minimum) = Some true ->
    exists pre,
      trace_of env thread = (pre ++ [OutputSet "total-coverage" total; FailedSet message])%list
      /\ Forall plain pre
      /\ (hasGithubToken env && isPR env = true -> Exists publish_call pre)
      /\ (hasGithubToken env && truthy (getInput env "coverage-artifact-name") = true ->
          In (Called (UploadArtifact (getInput env "coverage-artifact-name")
                        [mergedCoverageFile env] (path_dirname (mergedCoverageFile env)))) pre)
      /\ failure_of (trace_of env thread) = Some message
      /\ includes message (NumberToString total) = true
      /\ includes message minimum = true)
   /\ (js_ge total (StringToNumber minimum) = true ->
       failure_of (trace_of env thread) = None))
  /\ (forall c raised,
        In (Called c) (trace_of env thread) -> lookup_call c = false ->
        fault env c = Some raised ->
        exists pre,
          trace_of env thread = (pre ++ [Called c; FailedSet raised])%list
          /\ Forall plain pre).
Proof.
  intros total minimum message. split.
  - intros Quiet Payload.
    destruct (undisturbed_reaches_gate env thread Quiet Payload) as (pre & T & F & X & U).
    fold total minimum message in T. unfold isMinimumCoverageReached in T. split.
    + intros Lt. unfold js_ge in T. fold total minimum in T. rewrite Lt in T.
      exists pre. repeat split; try assumption.
      * rewrite T. rewrite failure_of_plain by exact F. reflexivity.
      * apply errorMessage_states.
      * apply errorMessage_states.
    + intros Ge. fold total minimum in T. rewrite Ge in T. rewrite T.
      rewrite failure_of_plain by exact F. reflexivity.
  - intros c raised. apply raised_call_ends_run.
Qed.

(** C6 (amended). In a run in which every call made outside the baseline
    lookup returns, and whose pull-request event carries its pull
    request in the payload, the [total-coverage] output is set to the
    aggregate coverage of the merged trace file, whatever the gate
    decides: nothing failed the run before it, and only the gate's
    failure can follow it.  In every run in which a call outside the
    baseline lookup raises, the run ends failed with that call's message
    and the output is not set. *)
Theorem C6_output_set_when_reporting_completes (thread : list Comment) :
  (undisturbed env thread -> payload_ok env ->
   exists pre post,
     trace_of env thread = (pre ++ OutputSet "total-coverage" (totalCoverage env) :: post)%list
     /\ Forall plain pre
     /\ (post = []
         \/ post = [FailedSet (errorMessage (totalCoverage env)
                                            (getInput env "minimum-coverage"))]))
  /\ (forall c raised,
        In (Called c) (trace_of env thread) -> lookup_call c = false ->
        fault env c = Some raised ->
        existsb sets_output (trace_of env thread) = false
        /\ failure_of (trace_of env thread) = Some raised).
Proof.
  split.
  - intros Quiet Payload.
    destruct (undisturbed_reaches_gate env thread Quiet Payload) as (pre & T & F & _).
    exists pre. eexists. split; [exact T |]. split; [exact F |].
    destruct (isMinimumCoverageReached _ _); auto.
  - intros c raised Made Outside Raised.
    destruct (raised_call_ends_run env thread c raised Made Outside Raised) as (pre & T & F).
    rewrite T. split.
    + rewrite existsb_app. simpl. rewrite orb_false_r.
      clear T. induction F as [| e pre He _ IH]; [reflexivity |].
      simpl. rewrite IH. destruct e; simpl in He; try contradiction; reflexivity.
    + rewrite failure_of_plain by exact F. reflexivity.
Qed.


(** C9. In every run, each request that writes the comment carries,
    right under the head line, the message line for the baseline that
    [calculatePreviousCoverage] resolved in this run: what the resolver
    returns from any world, which is nothing when the lookup raises or
    finds nothing, and the looked-up baseline with its coverage
    otherwise.  With a token on a pull-request event such a request is
    made when no call made outside the lookup raises and the payload
    carries the pull request.  The message line is the diff line exactly
    when a baseline was resolved: then it gives the difference printed by
    [toFixed(2)], with a "+" exactly when the difference is greater than
    zero, and the previous and the current coverage printed by
    [toFixed(2)]; without a baseline it is the "Total coverage" line.
    [toFixed(2)] prints a finite number below 10^21 with exactly two
    digits after the point. *)
Theorem C9_diff_line (thread : list Comment) :
  Forall (reports_baseline env) (trace_of env thread)
  /\ (forall w previous w',
        calculatePreviousCoverage env (getInput env "coverage-artifact-name")
          (trim (getInput env "github-token")) (tmpPath env) w = (Returned previous, w') ->
        previous = resolved_baseline env)
  /\ (forall w looked_up w',
        downloadTargetBranchCoverage env (getInput env "coverage-artifact-name")
          (trim (getInput env "github-token")) (tmpPath env) w = (looked_up, w') ->
        match looked_up with
        | Returned (Some baseline) =>
            fault env (LcovTotal (bl_path baseline)) = None ->
            resolved_baseline env
            = Some {| coverage := lcov_total env (bl_path baseline);
                      prev_path := bl_path baseline;
                      runId := bl_runId baseline;
                      targetBranchSha := bl_targetBranchSha baseline |}
        | Returned None | Thrown _ => resolved_baseline env = None
        end)
  /\ (undisturbed env thread -> payload_ok env -> hasGithubToken env && isPR env = true ->
      Exists publish_call (trace_of env thread))
  /\ (forall total previous sha,
        let line := diffMessage env total previous sha in
        (startsWith line "This pull request changes total coverage " = true
         <-> previous <> None)
        /\ (startsWith line "Total coverage: " = true <-> previous = None)
        /\ (forall p, previous = Some p ->
              let diff := PrimFloat.sub total (coverage p) in
              line = "This pull request changes total coverage "
                     ++ (if js_gt diff PrimFloat.zero then "+" else "") ++ toFixed2 diff
                     ++ "% (" ++ toFixed2 (coverage p) ++ "% -> " ++ toFixed2 total
                     ++ "%) for this [diff](https://github.com/" ++ owner env ++ "/" ++ repo env
                     ++ "/compare/" ++ targetBranchSha p ++ "..." ++ sha ++ ")")
        /\ (previous = None -> line = "Total coverage: " ++ toFixed2 total ++ "%"))
  /\ (forall x s m e,
        Prim2SF x = S754_finite s m e -> (Z.pos m * 2 ^ e < 10 ^ 21)%Z ->
        exists whole frac,
          toFixed2 x = (if s then "-" else "") ++ whole ++ "." ++ frac
          /\ String.length frac = 2%nat /\ (1 <= String.length whole)%nat
          /\ all_digits whole = true /\ all_digits frac = true).
Proof.
  assert (Resolved : forall w previous w',
             calculatePreviousCoverage env (getInput env "coverage-artifact-name")
               (trim (getInput env "github-token")) (tmpPath env) w = (Returned previous, w') ->
             previous = resolved_baseline env)
    by (intros w previous w'; apply steady_value, calculatePreviousCoverage_steady).
  split; [| split; [| split; [| split; [| split]]]].
  - destruct (run_writes_body env (start thread)) as (evs & L & F).
    unfold trace_of. rewrite L. simpl. revert F. apply Forall_impl.
    intros [[] | | |]; try exact (fun H => H); intros (pr & Payload & ->).
    all: exists pr; eexists; split; [exact Payload |].
    all: unfold published_body, commentBody, commentHeadLine; cbv zeta.
    all: rewrite !append_assoc; reflexivity.
  - exact Resolved.
  - intros w [[baseline |] | message] w' Looked.
    + intros Readable. symmetry. eapply Resolved.
      rewrite (calculatePreviousCoverage_resolves env _ _ _ _ _ _ Looked), Readable.
      reflexivity.
    + symmetry. eapply Resolved. exact (calculatePreviousCoverage_absent env _ _ _ _ _ Looked).
    + symmetry. eapply Resolved.
      exact (calculatePreviousCoverage_catches env _ _ _ _ _ _ Looked).
  - intros Quiet Payload Enabled.
    destruct (undisturbed_reaches_gate env thread Quiet Payload) as (pre & T & _ & X & _).
    rewrite T. apply Exists_app. left. now apply X.
  - intros total previous sha. apply message_line.
  - intros x s m e. apply toFixed2_two_decimals.
Qed.

End Run_claims.

(** ** Concrete runs for the gate, the output, the token and the message line *)

Section Run_scenarios.

Lemma no_fault_undisturbed (inputs : list (string * string)) (runs : list WorkflowRun)
    (thread : list Comment) :
  undisturbed (world inputs runs no_fault) thread.
Proof. intros c _ _. reflexivity. Qed.

(** Coverage 85 under a minimum of 90 fails after the comment, the
    upload and the output; under a minimum of 80 the run passes; and
    when the host refuses the comment, that request is the last thing
    the run does before it fails with the host's message. *)
Lemma C1_gate_witness :
  failure_of (trace_of gated_run [])
  = Some "The code coverage is too low: 85. Expected at least 90."
  /\ failure_of (trace_of passing_run []) = None
  /\ exists pre,
       trace_of refused_run []
       = (pre ++ [Called (CreateComment 7
                            (published_body refused_run
                               {| pr_number := 7; pr_head_sha := "0123456789abcdef";
                                  pr_base_ref := "main" |}));
                  FailedSet "Resource not accessible by integration"])%list
       /\ Forall plain pre.
Proof.
  split; [| split].
  - assert (Below : Number_lessThan (totalCoverage gated_run)
                      (StringToNumber (getInput gated_run "minimum-coverage")) = Some true)
      by (vm_compute; reflexivity).
    destruct (proj1 (proj1 (C1_gate_after_reporting (rt := node) gated_run [])
                       (no_fault_undisturbed _ _ _) (world_payload_ok _ _ _)) Below)
      as (pre & _ & _ & _ & _ & F & _).
    exact F.
  - apply (proj2 (proj1 (C1_gate_after_reporting (rt := node) passing_run [])
                    (no_fault_undisturbed _ _ _) (world_payload_ok _ _ _))).
    vm_compute. reflexivity.
  - apply (proj2 (C1_gate_after_reporting (rt := node) refused_run [])).
    + vm_compute. repeat first [ left; reflexivity | right ].
    + reflexivity.
    + reflexivity.
Defined.

(** C1, as stated, fails: coverage 85 is below the minimum 90, the host
    refuses the comment, and the run ends failed with the host's message,
    which names neither number, before any output was set. *)
Lemma C1_refused_comment_ends_the_run :
  Number_lessThan (totalCoverage refused_run)
                  (StringToNumber (getInput refused_run "minimum-coverage")) = Some true
  /\ failure_of (trace_of refused_run []) = Some "Resource not accessible by integration"
  /\ includes "Resource not accessible by integration" "85" = false
  /\ includes "Resource not accessible by integration" "90" = false
  /\ existsb sets_output (trace_of refused_run []) = false.
Proof. vm_compute. repeat split. Qed.

(** The output is set in the gated run although it fails; and when the
    HTML tool fails, the run fails with the tool's message and sets no
    output. *)
Lemma C6_output_witness :
  existsb sets_output (trace_of gated_run []) = true
  /\ failure_of (trace_of gated_run []) <> None
  /\ existsb sets_output (trace_of broken_tool_run []) = false
  /\ failure_of (trace_of broken_tool_run [])
     = Some "The process '/usr/bin/genhtml' failed with exit code 1".
Proof.
  destruct (proj1 (C6_output_set_when_reporting_completes (rt := node) gated_run [])
              (no_fault_undisturbed _ _ _) (world_payload_ok _ _ _))
    as (pre & post & T & _ & _).
  split; [| split].
  - rewrite T, existsb_app. simpl. apply orb_true_r.
  - vm_compute. discriminate.
  - apply (proj2 (C6_output_set_when_reporting_completes (rt := node) broken_tool_run [])
             (Exec "genhtml"
                ["cov/unit.info"; "cov/e2e.info"; "--rc"; "lcov_branch_coverage=1";
                 "--output-directory"; "/tmp/lcov/html"]
                (Some "./"))).
    + vm_compute. repeat first [ left; reflexivity | right ].
    + reflexivity.
    + reflexivity.
Defined.

(** C6, as stated, fails: when the HTML tool exits with an error the run
    ends failed and the [total-coverage] output is never set. *)
Lemma C6_no_output_when_the_tool_fails :
  trace_of broken_tool_run []
  = [Called (Glob "cov/*.info");
     Called (Exec "genhtml"
               ["cov/unit.info"; "cov/e2e.info"; "--rc"; "lcov_branch_coverage=1";
                "--output-directory"; "/tmp/lcov/html"]
               (Some "./"));
     FailedSet "The process '/usr/bin/genhtml' failed with exit code 1"]
  /\ existsb sets_output (trace_of broken_tool_run []) = false.
Proof. vm_compute. repeat split. Qed.



(** A baseline of 80.00 and a current coverage of 82.50; and the gated
    run, which resolves its baseline from run 12 and writes its
    comment. *)
Lemma C9_baseline_80_current_82_5 :
  diffMessage gated_run 82.5%float (Some baseline_80) "0123456789abcdef"
  = "This pull request changes total coverage +2.50% (80.00% -> 82.50%) for this [diff](https://github.com/octo/demo/compare/aaaaaaa...0123456789abcdef)"
  /\ resolved_baseline gated_run
     = Some {| coverage := 80%float;
               prev_path := Some "/tmp/lcov/12-coverage-lcov.info/lcov.info";
               runId := 12; targetBranchSha := "bbbbbbb" |}
  /\ Exists publish_call (trace_of gated_run []).
Proof.
  pose proof (C9_diff_line (rt := node) gated_run []) as (_ & _ & Looked & Written & Line & _).
  split; [| split].
  - rewrite (proj1 (proj2 (proj2 (Line 82.5%float (Some baseline_80) "0123456789abcdef")))
               baseline_80 eq_refl).
    reflexivity.
  - apply (Looked (start [])
             (Returned (Some {| bl_path := Some "/tmp/lcov/12-coverage-lcov.info/lcov.info";
                                bl_runId := 12; bl_targetBranchSha := "bbbbbbb" |}))
             (snd (downloadTargetBranchCoverage gated_run "coverage" "secret" "/tmp/lcov"
                     (start [])))).
    + vm_compute. reflexivity.
    + reflexivity.
  - apply Written; [apply no_fault_undisturbed | apply world_payload_ok | reflexivity].
Defined.

End Run_scenarios.
